(** * Pulsii: the pulse relay (server.js) and the pulse client (script.js)

    A shallow embedding of the two programs of the repository and the
    theorems that relate them to the written specification.

    Conventions of the embedding.
    - A JavaScript string is the list of its UTF-16 code units.
    - The colour pipeline ([hexToRgb]) is integer and bitwise code: its
      numbers are modelled bit-exactly as binary64 values ([spec_float] of
      the Standard Library, precision 53, maximal exponent 1024).
    - Coordinates, radii, ages and time stamps go through multiplications,
      divisions and [Math.sin]: they are modelled by [number], the reals
      extended with the three special values of binary64 ([NaN], [+Infinity],
      [-Infinity]); finite arithmetic is exact (rounding is idealised away),
      the special values follow IEEE 754.
    - A JavaScript exception is a [Throw] result; [try]/[catch] is a match
      on it. *)

From Stdlib Require Import ZArith List String Ascii Bool Lia.
From Stdlib Require Import Reals Lra.
From Stdlib Require Import SpecFloat.
Import ListNotations.

Set Implicit Arguments.
Set Warnings "-register-all".

(* ================================================================== *)
(** ** Strings *)

Module JsString.

(** A string is its sequence of UTF-16 code units. *)
Definition t := list N.

(** String literals of the source, written as Rocq strings. *)
Definition lit (s : string) : t :=
  List.map N_of_ascii (list_ascii_of_string s).

Fixpoint eqb (a b : t) : bool :=
  match a, b with
  | [], [] => true
  | x :: a', y :: b' => N.eqb x y && eqb a' b'
  | _, _ => false
  end.

(** [s.replace(c, '')] for a one-code-unit pattern [c]: the first
    occurrence of [c] is removed, anywhere in the string. *)
Fixpoint replace_first (c : N) (s : t) : t :=
  match s with
  | [] => []
  | x :: s' => if N.eqb x c then s' else x :: replace_first c s'
  end.

(** WhiteSpace and LineTerminator code units of ECMAScript, the ones
    [TrimString] removes. *)
Definition isWhiteSpace (c : N) : bool :=
  existsb (N.eqb c)
    [9; 10; 11; 12; 13; 32; 160; 5760; 8232; 8233; 8239; 8287; 12288; 65279]%N
  || (N.leb 8192 c && N.leb c 8202).

Fixpoint trimStart (s : t) : t :=
  match s with
  | c :: s' => if isWhiteSpace c then trimStart s' else s
  | [] => []
  end.

End JsString.

Abbreviation jsstring := JsString.t.

(* ================================================================== *)
(** ** The colour pipeline: [parseInt], [ToInt32], [hexToRgb] *)

Module Color.

Local Open Scope Z_scope.

Definition hash : N := 35.   (* '#' *)

(** Value of a code unit as a radix-16 digit. *)
Definition hexDigit (c : N) : option Z :=
  if (N.leb 48 c && N.leb c 57)%bool then Some (Z.of_N c - 48)        (* 0-9 *)
  else if (N.leb 97 c && N.leb c 102)%bool then Some (Z.of_N c - 87)  (* a-f *)
  else if (N.leb 65 c && N.leb c 70)%bool then Some (Z.of_N c - 55)   (* A-F *)
  else None.

(** The longest prefix of radix-16 digits, as the digit count and the
    integer it denotes. *)
Fixpoint hexPrefix (count : nat) (acc : Z) (s : jsstring) : nat * Z :=
  match s with
  | [] => (count, acc)
  | c :: s' =>
      match hexDigit c with
      | Some d => hexPrefix (S count) (acc * 16 + d) s'
      | None => (count, acc)
      end
  end.

(** The Number nearest to an integer (round to nearest, ties to even;
    an overflow gives an infinity). *)
Definition toNumber (z : Z) (negZero : bool) : spec_float :=
  binary_normalize 53 1024 z 0 negZero.

(** [parseInt(s, 16)]. *)
Definition parseInt16 (s : jsstring) : spec_float :=
  let s1 := JsString.trimStart s in
  let '(neg, s2) :=
    match s1 with
    | 45%N :: r => (true, r)      (* '-' *)
    | 43%N :: r => (false, r)     (* '+' *)
    | _ => (false, s1)
    end in
  let s3 :=
    match s2 with
    | 48%N :: 120%N :: r => r     (* 0x *)
    | 48%N :: 88%N :: r => r      (* 0X *)
    | _ => s2
    end in
  match hexPrefix 0 0 s3 with
  | (O, _) => S754_nan
  | (_, mathInt) => toNumber (if neg then - mathInt else mathInt) neg
  end.

(** The integer part (towards zero) of a finite Number. *)
Definition truncate (f : spec_float) : Z :=
  match f with
  | S754_finite s m e =>
      let a := match e with
               | Zneg p => Z.shiftr (Zpos m) (Zpos p)
               | _ => Z.shiftl (Zpos m) e
               end in
      if s then - a else a
  | _ => 0
  end.

(** [ToInt32]: NaN, the zeros and the infinities give 0; any other value
    is truncated and wrapped modulo 2^32 into [-2^31, 2^31). *)
Definition ToInt32 (f : spec_float) : Z :=
  (truncate f + 2 ^ 31) mod 2 ^ 32 - 2 ^ 31.

Record Rgb := { r : Z; g : Z; b : Z }.

(** [(i >> k) & 255] on an int32 [i]. *)
Definition channel (i : Z) (k : Z) : Z := Z.land (Z.shiftr i k) 255.

(** [hexToRgb] on a string. *)
Definition hexToRgb_str (hex : jsstring) : Rgb :=
  let cleaned := JsString.replace_first hash hex in
  let int := parseInt16 cleaned in
  {| r := channel (ToInt32 int) 16;
     g := channel (ToInt32 int) 8;
     b := channel (ToInt32 int) 0 |}.

End Color.

Import JsString.

(* ================================================================== *)
(** ** Numbers of the geometry and of the animation *)

Module Num.

Local Open Scope R_scope.

(** The reals, with the special values of binary64. The only zero the
    program divides by is a canvas dimension, an unsigned integer, so the
    zero of the model is the positive zero. *)
Inductive number :=
| NaN
| NegInf
| Fin (x : R)
| PosInf.

Definition isNaN (a : number) : bool :=
  match a with NaN => true | _ => false end.

(** [a <= b]; false as soon as one side is NaN. *)
Definition le (a b : number) : bool :=
  match a, b with
  | NaN, _ | _, NaN => false
  | NegInf, _ => true
  | _, PosInf => true
  | Fin x, Fin y => if Rle_dec x y then true else false
  | _, _ => false
  end.

(** [a >= b]. *)
Definition ge (a b : number) : bool := le b a.

(** [a < b]. *)
Definition lt (a b : number) : bool :=
  match a, b with
  | NaN, _ | _, NaN => false
  | _, _ => negb (le b a)
  end.

(** [Math.min] and [Math.max] of two arguments: NaN if one is NaN. *)
Definition Math_min (a b : number) : number :=
  match a, b with
  | NaN, _ | _, NaN => NaN
  | _, _ => if le a b then a else b
  end.

Definition Math_max (a b : number) : number :=
  match a, b with
  | NaN, _ | _, NaN => NaN
  | _, _ => if le a b then b else a
  end.

Definition neg (a : number) : number :=
  match a with
  | NaN => NaN
  | NegInf => PosInf
  | PosInf => NegInf
  | Fin x => Fin (- x)
  end.

Definition add (a b : number) : number :=
  match a, b with
  | NaN, _ | _, NaN => NaN
  | Fin x, Fin y => Fin (x + y)
  | PosInf, NegInf | NegInf, PosInf => NaN
  | PosInf, _ | _, PosInf => PosInf
  | NegInf, _ | _, NegInf => NegInf
  end.

Definition sub (a b : number) : number := add a (neg b).

(** An infinity scaled by a finite factor. *)
Definition scaleInf (positive : bool) (x : R) : number :=
  if Rlt_dec 0 x then (if positive then PosInf else NegInf)
  else if Rlt_dec x 0 then (if positive then NegInf else PosInf)
  else NaN.

Definition mul (a b : number) : number :=
  match a, b with
  | NaN, _ | _, NaN => NaN
  | Fin x, Fin y => Fin (x * y)
  | Fin x, PosInf | PosInf, Fin x => scaleInf true x
  | Fin x, NegInf | NegInf, Fin x => scaleInf false x
  | PosInf, PosInf | NegInf, NegInf => PosInf
  | PosInf, NegInf | NegInf, PosInf => NegInf
  end.

Definition div (a b : number) : number :=
  match a, b with
  | NaN, _ | _, NaN => NaN
  | Fin x, Fin y =>
      if Req_dec_T y 0 then scaleInf true x   (* x / +0 *)
      else Fin (x / y)
  | Fin _, _ => Fin 0
  | PosInf, Fin y => if Rlt_dec y 0 then NegInf else PosInf
  | NegInf, Fin y => if Rlt_dec y 0 then PosInf else NegInf
  | _, _ => NaN
  end.

Definition Math_PI : number := Fin PI.

Definition Math_sin (a : number) : number :=
  match a with
  | Fin x => Fin (sin x)
  | _ => NaN
  end.

(** [Math.hypot] of two arguments: an infinite argument wins over NaN. *)
Definition Math_hypot (a b : number) : number :=
  match a, b with
  | PosInf, _ | NegInf, _ | _, PosInf | _, NegInf => PosInf
  | Fin x, Fin y => Fin (sqrt (x * x + y * y))
  | _, _ => NaN
  end.

(** [Math.round]: the integer nearest to the argument, ties upwards. *)
Definition Math_round (a : number) : number :=
  match a with
  | Fin x => Fin (IZR (Int_part (x + / 2)))
  | _ => a
  end.

(** A canvas dimension, read as a Number. *)
Definition ofN (n : N) : number := Fin (IZR (Z.of_N n)).

(** Assignment to a canvas dimension (an [unsigned long]): NaN and the
    infinities become 0, a finite value loses its fraction; a negative
    value is outside the inputs the program produces and is taken as 0. *)
Definition toDimension (a : number) : N :=
  match a with
  | Fin x => Z.to_N (Int_part x)
  | _ => 0%N
  end.

(** [lo <= a <= hi], as a proposition on finite values. *)
Definition within (lo hi : R) (a : number) : Prop :=
  match a with
  | Fin x => lo <= x <= hi
  | _ => False
  end.

End Num.

Abbreviation number := Num.number.

(* ================================================================== *)
(** ** Values, JSON documents, exceptions *)

(** The result of a computation that may throw. *)
Inductive Exn := SyntaxError | TypeError.

Inductive Result (A : Type) :=
| Ok (a : A)
| Throw (e : Exn).

Arguments Ok {A} a.
Arguments Throw {A} e.

Module Js.

(** The values [JSON.parse] can return, and [undefined]. An object is the
    list of its own properties in creation order. *)
Inductive value :=
| VUndefined
| VNull
| VBool (b : bool)
| VNum (n : number)
| VStr (s : jsstring)
| VArr (items : list value)
| VObj (props : list (jsstring * value)).

(** A JSON text, by its syntax tree; a number literal by the real number
    it denotes. *)
Inductive json :=
| JNull
| JBool (b : bool)
| JNum (x : R)
| JStr (s : jsstring)
| JArr (items : list json)
| JObj (members : list (jsstring * json)).

(** What arrives in a frame: a well-formed JSON text or anything else. *)
Inductive text :=
| Malformed (raw : jsstring)
| Doc (j : json).

(** Magnitudes from [2^1024 - 2^970] on round to an infinity. *)
Definition overflow : R := IZR (2 ^ 1024 - 2 ^ 970).

Definition numberOfLiteral (x : R) : number :=
  if Rle_dec overflow x then Num.PosInf
  else if Rle_dec x (- overflow) then Num.NegInf
  else Num.Fin x.

(** [o[k] = v] on a property list: an existing property keeps its place. *)
Fixpoint setProp (k : jsstring) (v : value) (props : list (jsstring * value))
  : list (jsstring * value) :=
  match props with
  | [] => [(k, v)]
  | (k', v') :: rest =>
      if JsString.eqb k' k then (k', v) :: rest
      else (k', v') :: setProp k v rest
  end.

(** The value a JSON text denotes: of two members with one name the later
    one wins. *)
Fixpoint reify (j : json) : value :=
  match j with
  | JNull => VNull
  | JBool b => VBool b
  | JNum x => VNum (numberOfLiteral x)
  | JStr s => VStr s
  | JArr items => VArr (List.map reify items)
  | JObj members =>
      VObj (List.fold_left
              (fun acc member => setProp (fst member) (reify (snd member)) acc)
              members [])
  end.

Definition JSON_parse (data : text) : Result value :=
  match data with
  | Malformed _ => Throw SyntaxError
  | Doc j => Ok (reify j)
  end.

(** [JSON.stringify]: [None] stands for [undefined] (nothing is written);
    a number that is not finite is written [null]; an undefined property
    is left out, an undefined array item is written [null]. *)
Fixpoint JSON_stringify (v : value) : option json :=
  match v with
  | VUndefined => None
  | VNull => Some JNull
  | VBool b => Some (JBool b)
  | VNum (Num.Fin x) => Some (JNum x)
  | VNum _ => Some JNull
  | VStr s => Some (JStr s)
  | VArr items =>
      Some (JArr (List.map (fun i => match JSON_stringify i with
                                     | Some j => j
                                     | None => JNull
                                     end) items))
  | VObj props =>
      Some (JObj ((fix members (ps : list (jsstring * value)) :=
                     match ps with
                     | [] => []
                     | (k, v') :: rest =>
                         match JSON_stringify v' with
                         | Some j => (k, j) :: members rest
                         | None => members rest
                         end
                     end) props))
  end.

(** [typeof]. *)
Inductive type := TUndefined | TObject | TBoolean | TNumber | TString.

Definition typeof (v : value) : type :=
  match v with
  | VUndefined => TUndefined
  | VNull | VArr _ | VObj _ => TObject
  | VBool _ => TBoolean
  | VNum _ => TNumber
  | VStr _ => TString
  end.

Definition type_eqb (a b : type) : bool :=
  match a, b with
  | TUndefined, TUndefined | TObject, TObject | TBoolean, TBoolean
  | TNumber, TNumber | TString, TString => true
  | _, _ => false
  end.

(** [ToBoolean]. *)
Definition truthy (v : value) : bool :=
  match v with
  | VUndefined | VNull => false
  | VBool b => b
  | VNum (Num.Fin x) => if Req_dec_T x 0 then false else true
  | VNum Num.NaN => false
  | VNum _ => true
  | VStr [] => false
  | _ => true
  end.

(** [v || {}]. *)
Definition orEmptyObject (v : value) : value :=
  if truthy v then v else VObj [].

Fixpoint lookup (k : jsstring) (props : list (jsstring * value)) : option value :=
  match props with
  | [] => None
  | (k', v) :: rest => if JsString.eqb k' k then Some v else lookup k rest
  end.

(** Reading the property [k] of [v], for a name that is not an index, not
    [length] and not a member of a built-in prototype: [type], [xNorm],
    [yNorm] and [color] are such names. Only an object has one. *)
Definition get (v : value) (k : jsstring) : value :=
  match v with
  | VObj props =>
      match lookup k props with
      | Some x => x
      | None => VUndefined
      end
  | _ => VUndefined
  end.

(** [v === 'literal']. *)
Definition isString (v : value) (s : jsstring) : bool :=
  match v with
  | VStr s' => JsString.eqb s' s
  | _ => false
  end.

End Js.

Import Js.

(** The state of a WebSocket, on either side. *)
Inductive ReadyState := CONNECTING | OPEN | CLOSING | CLOSED.

Definition isOPEN (s : ReadyState) : bool :=
  match s with OPEN => true | _ => false end.

(* ================================================================== *)
(** ** server.js: the relay *)

Module Relay.

(** A connection of [wss.clients]: the state of its socket and the frames
    sent on it so far, oldest first. *)
Record Client := { readyState : ReadyState; sent : list json }.

(** [client.send(data)] on an open socket. *)
Definition send (data : json) (client : Client) : Client :=
  {| readyState := readyState client; sent := sent client ++ [data] |}.

(** [wss.clients] is a Set, visited in insertion order. *)
Definition broadcast (data : json) (clients : list Client) : list Client :=
  List.map (fun client =>
              if isOPEN (readyState client) then send data client else client)
           clients.

(** The four names the handler reads. *)
Definition k_type : jsstring := lit "type".
Definition k_xNorm : jsstring := lit "xNorm".
Definition k_yNorm : jsstring := lit "yNorm".
Definition k_color : jsstring := lit "color".
Definition s_pulse : jsstring := lit "pulse".

(** The body of the [try] block of the message handler. *)
Definition message_try (data : text) (clients : list Client)
    : Result (list Client) :=
  match JSON_parse data with
  | Throw e => Throw e
  | Ok parsed =>
      let o := orEmptyObject parsed in
      let type := get o k_type in
      let xNorm := get o k_xNorm in
      let yNorm := get o k_yNorm in
      let color := get o k_color in
      let isPulse :=
        isString type s_pulse
        && type_eqb (typeof xNorm) TNumber
        && type_eqb (typeof yNorm) TNumber
        && type_eqb (typeof color) TString in
      if negb isPulse then Ok clients
      else
        match JSON_stringify (VObj [(k_type, type); (k_xNorm, xNorm);
                                    (k_yNorm, yNorm); (k_color, color)]) with
        | Some frame => Ok (broadcast frame clients)
        | None => Throw TypeError
        end
  end.

(** [socket.on('message', ...)]: the [catch] block is empty. *)
Definition on_message (data : text) (clients : list Client) : list Client :=
  match message_try data clients with
  | Ok clients' => clients'
  | Throw _ => clients
  end.

(** The pulse-event schema, on the value a frame denotes. *)
Definition pulse_value (v : value) : Prop :=
  exists props x y c,
    v = VObj props
    /\ lookup k_type props = Some (VStr s_pulse)
    /\ lookup k_xNorm props = Some (VNum x)
    /\ lookup k_yNorm props = Some (VNum y)
    /\ lookup k_color props = Some (VStr c).

Definition pulse_schema (data : text) : Prop :=
  exists j, data = Doc j /\ pulse_value (reify j).

(** How a Number is written by [JSON.stringify]. *)
Definition written (n : number) : json :=
  match n with
  | Num.Fin x => JNum x
  | _ => JNull
  end.

(** The frame of a pulse event. *)
Definition pulse_frame (x y : json) (c : jsstring) : json :=
  JObj [(k_type, JStr s_pulse); (k_xNorm, x); (k_yNorm, y); (k_color, JStr c)].

(** [HTTP_PORT = process.env.PORT || 3000]: an environment variable is a
    string, and the empty string is falsy. *)
Inductive Port := PortName (s : jsstring) | PortNumber (n : N).

Definition HOST : jsstring := lit "0.0.0.0".

Definition HTTP_PORT (env_PORT : option jsstring) : Port :=
  match env_PORT with
  | Some (c :: s) => PortName (c :: s)
  | _ => PortNumber 3000
  end.

(** The port number [listen] reads from a port value. A string of decimal
    digits, the only spelling modelled, names its decimal value; any other
    string is taken as an illegal port. *)
Fixpoint decimal (acc : N) (s : jsstring) : option N :=
  match s with
  | [] => Some acc
  | c :: s' =>
      if (N.leb 48 c && N.leb c 57)%bool then decimal (acc * 10 + (c - 48)) s'
      else None
  end.

Definition portNumber (p : Port) : option N :=
  match p with
  | PortNumber n => Some n
  | PortName s => decimal 0 s
  end.

(** Outcome of [server.listen(HTTP_PORT, HOST)], given the ports already
    bound on the machine. An illegal port makes [listen] throw; a busy port
    makes the server emit ['error'] (EADDRINUSE), which nothing listens to:
    either way the process ends. There is no other call to [listen]. *)
Inductive Listen :=
  | Listening (host : jsstring) (port : N)
  | Crashed.

Definition server_listen (env_PORT : option jsstring) (bound : N -> bool)
    : Listen :=
  match portNumber (HTTP_PORT env_PORT) with
  | Some n =>
      if N.ltb n 65536 then
        if bound n then Crashed else Listening HOST n
      else Crashed
  | None => Crashed
  end.

End Relay.

(** The check both programs make, as a function of the parsed value. *)
Definition checked (parsed : value) : bool :=
  let o := orEmptyObject parsed in
  isString (get o Relay.k_type) Relay.s_pulse
  && type_eqb (typeof (get o Relay.k_xNorm)) TNumber
  && type_eqb (typeof (get o Relay.k_yNorm)) TNumber
  && type_eqb (typeof (get o Relay.k_color)) TString.

(* ================================================================== *)
(** ** script.js: the client *)

Module Picker.

(** The [colorPicker] object; [None] is [null]. [input_value] is
    [colorPicker.input.value]. *)
Record t := {
    input_value : jsstring;
    radius : number;
    margin : number;
    x : option number;
    y : option number;
    isDragging : bool;
    pointerId : option N;
    isPointerCapture : bool;
    dragStartX : option number;
    dragStartY : option number;
    pointerStartX : number;
    pointerStartY : number
  }.

End Picker.

Module PointerEvent.
Record t := { clientX : number; clientY : number; pointerId : N }.
End PointerEvent.

Module Touch.
Record t := { identifier : N; clientX : number; clientY : number }.
End Touch.

Module Client.

Local Open Scope R_scope.

Record Pulse := {
    normX : number;
    normY : number;
    rgb : Color.Rgb;
    radius : number;
    age : number
  }.

Definition MAX_PULSE_ALPHA : number := Num.Fin 0.22.
Definition GROWTH_RATE : number := Num.Fin 420.
Definition PULSE_LIFETIME : number := Num.Fin 1.4.

(** A [WebSocket] object of the page: its state, the frames handed to
    [send], oldest first, and whether [connectWebSocket] has put its four
    listeners on it. *)
Record Socket := {
    readyState : ReadyState;
    outbox : list json;
    listening : bool
  }.

(** What [setTimeout] is called with. *)
Inductive Callback := connectWebSocket_cb.

Record Timer := { delay : N; callback : Callback }.

(** [canvas.getBoundingClientRect()]. *)
Record Rect := { left : number; top : number; width : number; height : number }.

(** The variables of the script and the part of the page they read. *)
Record State := {
    pulses : list Pulse;
    colorPicker : Picker.t;
    cssWidth : number;
    cssHeight : number;
    deviceRatio : number;
    canvas_width : N;
    canvas_height : N;
    rect : Rect;
    devicePixelRatio : number;
    socket : option nat;
    sockets : list Socket;
    timers : list Timer;
    lastTime : number;
    console_errors : nat
  }.

Definition set_pulses (ps : list Pulse) (st : State) : State :=
  {| pulses := ps; colorPicker := colorPicker st; cssWidth := cssWidth st;
     cssHeight := cssHeight st; deviceRatio := deviceRatio st;
     canvas_width := canvas_width st; canvas_height := canvas_height st;
     rect := rect st; devicePixelRatio := devicePixelRatio st;
     socket := socket st; sockets := sockets st; timers := timers st;
     lastTime := lastTime st; console_errors := console_errors st |}.

Definition set_colorPicker (cp : Picker.t) (st : State) : State :=
  {| pulses := pulses st; colorPicker := cp; cssWidth := cssWidth st;
     cssHeight := cssHeight st; deviceRatio := deviceRatio st;
     canvas_width := canvas_width st; canvas_height := canvas_height st;
     rect := rect st; devicePixelRatio := devicePixelRatio st;
     socket := socket st; sockets := sockets st; timers := timers st;
     lastTime := lastTime st; console_errors := console_errors st |}.

Definition set_canvas (cw ch dr : number) (w h : N) (st : State) : State :=
  {| pulses := pulses st; colorPicker := colorPicker st; cssWidth := cw;
     cssHeight := ch; deviceRatio := dr;
     canvas_width := w; canvas_height := h;
     rect := rect st; devicePixelRatio := devicePixelRatio st;
     socket := socket st; sockets := sockets st; timers := timers st;
     lastTime := lastTime st; console_errors := console_errors st |}.

Definition set_network (s : option nat) (ss : list Socket) (ts : list Timer)
    (st : State) : State :=
  {| pulses := pulses st; colorPicker := colorPicker st; cssWidth := cssWidth st;
     cssHeight := cssHeight st; deviceRatio := deviceRatio st;
     canvas_width := canvas_width st; canvas_height := canvas_height st;
     rect := rect st; devicePixelRatio := devicePixelRatio st;
     socket := s; sockets := ss; timers := ts;
     lastTime := lastTime st; console_errors := console_errors st |}.

Definition set_lastTime (t : number) (st : State) : State :=
  {| pulses := pulses st; colorPicker := colorPicker st; cssWidth := cssWidth st;
     cssHeight := cssHeight st; deviceRatio := deviceRatio st;
     canvas_width := canvas_width st; canvas_height := canvas_height st;
     rect := rect st; devicePixelRatio := devicePixelRatio st;
     socket := socket st; sockets := sockets st; timers := timers st;
     lastTime := t; console_errors := console_errors st |}.

Definition console_error (st : State) : State :=
  {| pulses := pulses st; colorPicker := colorPicker st; cssWidth := cssWidth st;
     cssHeight := cssHeight st; deviceRatio := deviceRatio st;
     canvas_width := canvas_width st; canvas_height := canvas_height st;
     rect := rect st; devicePixelRatio := devicePixelRatio st;
     socket := socket st; sockets := sockets st; timers := timers st;
     lastTime := lastTime st; console_errors := S (console_errors st) |}.

(** [null] read as a Number is 0. *)
Definition orZero (v : option number) : number :=
  match v with
  | Some n => n
  | None => Num.Fin 0
  end.

(** [n || 1]. *)
Definition orOne (n : number) : number :=
  if truthy (VNum n) then n else Num.Fin 1.

(** [syncColorInputPosition] only styles the hidden input: it does not
    touch the state. *)
Definition positionColorPicker (st : State) : State :=
  let cp := colorPicker st in
  let r := Picker.radius cp in
  let '(x0, y0) :=
    match Picker.x cp, Picker.y cp with
    | Some x, Some y => (x, y)
    | _, _ => (Num.add (Picker.margin cp) r,
               Num.sub (cssHeight st) (Num.add (Picker.margin cp) r))
    end in
  let x1 := Num.Math_min (Num.Math_max r x0)
                         (Num.Math_max r (Num.sub (cssWidth st) r)) in
  let y1 := Num.Math_min (Num.Math_max r y0)
                         (Num.Math_max r (Num.sub (cssHeight st) r)) in
  set_colorPicker
    {| Picker.input_value := Picker.input_value cp;
       Picker.radius := r; Picker.margin := Picker.margin cp;
       Picker.x := Some x1; Picker.y := Some y1;
       Picker.isDragging := Picker.isDragging cp;
       Picker.pointerId := Picker.pointerId cp;
       Picker.isPointerCapture := Picker.isPointerCapture cp;
       Picker.dragStartX := Picker.dragStartX cp;
       Picker.dragStartY := Picker.dragStartY cp;
       Picker.pointerStartX := Picker.pointerStartX cp;
       Picker.pointerStartY := Picker.pointerStartY cp |} st.

Definition resizeCanvas (st : State) : State :=
  let cw := width (rect st) in
  let ch := height (rect st) in
  let dr := orOne (devicePixelRatio st) in
  positionColorPicker
    (set_canvas cw ch dr
       (Num.toDimension (Num.Math_round (Num.mul cw dr)))
       (Num.toDimension (Num.Math_round (Num.mul ch dr))) st).

(** [hexToRgb]: [hex.replace] exists on a string only. *)
Definition hexToRgb (hex : value) : Result Color.Rgb :=
  match hex with
  | VStr s => Ok (Color.hexToRgb_str s)
  | _ => Throw TypeError
  end.

Definition spawnPulse (normX normY : number) (colorHex : value) (st : State)
    : Result State :=
  match hexToRgb colorHex with
  | Throw e => Throw e
  | Ok rgb =>
      Ok (set_pulses (pulses st ++ [{| normX := normX; normY := normY;
                                       rgb := rgb;
                                       radius := Num.Fin 0;
                                       age := Num.Fin 0 |}]) st)
  end.

(** [socket.send(data)] on the socket [i]. *)
Fixpoint socket_send (i : nat) (data : json) (ss : list Socket) : list Socket :=
  match i, ss with
  | _, [] => []
  | O, s :: rest =>
      {| readyState := readyState s; outbox := outbox s ++ [data];
         listening := listening s |} :: rest
  | S i', s :: rest => s :: socket_send i' data rest
  end.

(** [socket && socket.readyState === WebSocket.OPEN]. *)
Definition socketIsOpen (st : State) : bool :=
  match socket st with
  | Some i =>
      match nth_error (sockets st) i with
      | Some s => isOPEN (readyState s)
      | None => false
      end
  | None => false
  end.

Definition pulse_message (normX normY : number) (colorHex : value) : value :=
  VObj [(Relay.k_type, VStr Relay.s_pulse); (Relay.k_xNorm, VNum normX);
        (Relay.k_yNorm, VNum normY); (Relay.k_color, colorHex)].

Definition sendPulse (normX normY : number) (colorHex : value) (st : State)
    : Result State :=
  match spawnPulse normX normY colorHex st with
  | Throw e => Throw e
  | Ok st1 =>
      if socketIsOpen st1 then
        match socket st1, JSON_stringify (pulse_message normX normY colorHex) with
        | Some i, Some frame =>
            Ok (set_network (socket st1) (socket_send i frame (sockets st1))
                            (timers st1) st1)
        | _, _ => Throw TypeError
        end
      else Ok st1
  end.

Definition isInsideColorPicker (localX localY : number) (st : State) : bool :=
  let cp := colorPicker st in
  let dx := Num.sub localX (orZero (Picker.x cp)) in
  let dy := Num.sub localY (orZero (Picker.y cp)) in
  Num.le (Num.Math_hypot dx dy) (Picker.radius cp).

Record Position := { x : number; y : number; pos_normX : number; pos_normY : number }.

(** [getPointerPosition] and [getTouchPosition] do the same with the
    client coordinates of their argument. *)
Definition position (clientX clientY : number) (st : State) : Position :=
  let x := Num.sub clientX (left (rect st)) in
  let y := Num.sub clientY (top (rect st)) in
  {| x := x; y := y;
     pos_normX := Num.div (Num.mul x (deviceRatio st)) (Num.ofN (canvas_width st));
     pos_normY := Num.div (Num.mul y (deviceRatio st)) (Num.ofN (canvas_height st)) |}.

Definition getPointerPosition (event : PointerEvent.t) (st : State) : Position :=
  position (PointerEvent.clientX event) (PointerEvent.clientY event) st.

Definition getTouchPosition (touch : Touch.t) (st : State) : Position :=
  position (Touch.clientX touch) (Touch.clientY touch) st.

(** The picker once a drag starts at [(x, y)]. *)
Definition startDrag (id : N) (capture : bool) (x y : number) (cp : Picker.t)
    : Picker.t :=
  {| Picker.input_value := Picker.input_value cp;
     Picker.radius := Picker.radius cp; Picker.margin := Picker.margin cp;
     Picker.x := Picker.x cp; Picker.y := Picker.y cp;
     Picker.isDragging := true;
     Picker.pointerId := Some id;
     Picker.isPointerCapture := capture;
     Picker.dragStartX := Picker.x cp;
     Picker.dragStartY := Picker.y cp;
     Picker.pointerStartX := x;
     Picker.pointerStartY := y |}.

(** [setPointerCapture] and [preventDefault] act on the page only. *)
Definition handlePointerDown (event : PointerEvent.t) (st : State)
    : Result State :=
  let p := getPointerPosition event st in
  if isInsideColorPicker (x p) (y p) st then
    Ok (set_colorPicker
          (startDrag (PointerEvent.pointerId event) true (x p) (y p)
                     (colorPicker st)) st)
  else
    let colorHex := VStr (Picker.input_value (colorPicker st)) in
    sendPulse (pos_normX p) (pos_normY p) colorHex st.

Definition handleTouchStart (touches : list Touch.t) (st : State)
    : Result State :=
  match touches with
  | [] => Ok st
  | touch :: _ =>
      let p := getTouchPosition touch st in
      if isInsideColorPicker (x p) (y p) st then
        Ok (set_colorPicker
              (startDrag (Touch.identifier touch) false (x p) (y p)
                         (colorPicker st)) st)
      else
        let colorHex := VStr (Picker.input_value (colorPicker st)) in
        sendPulse (pos_normX p) (pos_normY p) colorHex st
  end.

(** *** Sync layer *)

(** [socket = new WebSocket(WS_URL)] and the four [addEventListener]
    calls: a fresh socket, connecting, with the listeners on it. *)
Definition connectWebSocket (st : State) : State :=
  set_network (Some (List.length (sockets st)))
              (sockets st ++ [{| readyState := CONNECTING; outbox := [];
                                 listening := true |}])
              (timers st) st.

(** [setTimeout(callback, delay)]. *)
Definition setTimeout (cb : Callback) (ms : N) (st : State) : State :=
  set_network (socket st) (sockets st)
              (timers st ++ [{| delay := ms; callback := cb |}]) st.

(** A Number is passed to [Math.min] as it is; the listener passes
    nothing else. *)
Definition numberOf (v : value) : number :=
  match v with
  | VNum n => n
  | _ => Num.NaN
  end.

(** The ['message'] listener once [JSON.parse] has returned [data]. *)
Definition message_parsed (data : value) (st : State) : Result State :=
  let o := orEmptyObject data in
  let type := get o Relay.k_type in
  let xNorm := get o Relay.k_xNorm in
  let yNorm := get o Relay.k_yNorm in
  let color := get o Relay.k_color in
  if isString type Relay.s_pulse
     && type_eqb (typeof xNorm) TNumber
     && type_eqb (typeof yNorm) TNumber
     && type_eqb (typeof color) TString
  then
    let clampedX := Num.Math_max (Num.Fin 0) (Num.Math_min (Num.Fin 1) (numberOf xNorm)) in
    let clampedY := Num.Math_max (Num.Fin 0) (Num.Math_min (Num.Fin 1) (numberOf yNorm)) in
    let pxX := Num.mul clampedX (Num.ofN (canvas_width st)) in
    let pxY := Num.mul clampedY (Num.ofN (canvas_height st)) in
    let normX := Num.div pxX (Num.ofN (canvas_width st)) in
    let normY := Num.div pxY (Num.ofN (canvas_height st)) in
    spawnPulse normX normY color st
  else Ok st.

(** The body of the [try] block of the ['message'] listener. *)
Definition message_try (event_data : text) (st : State) : Result State :=
  match JSON_parse event_data with
  | Throw e => Throw e
  | Ok data => message_parsed data st
  end.

(** The ['message'] listener: the [catch] block logs and goes on. *)
Definition on_message (data : text) (st : State) : State :=
  match message_try data st with
  | Ok st' => st'
  | Throw _ => console_error st
  end.

(** The ['close'] listener; it takes no argument. *)
Definition on_close (st : State) : State :=
  setTimeout connectWebSocket_cb 500 st.

(** What the browser reports on a socket. *)
Inductive SocketEvent :=
  | ev_open
  | ev_message (data : text)
  | ev_close (code : N) (reason : jsstring) (wasClean : bool)
  | ev_error.

Fixpoint set_readyState (i : nat) (rs : ReadyState) (ss : list Socket)
    : list Socket :=
  match i, ss with
  | _, [] => []
  | O, s :: rest =>
      {| readyState := rs; outbox := outbox s; listening := listening s |} :: rest
  | S i', s :: rest => s :: set_readyState i' rs rest
  end.

(** The browser delivers an event on the socket [i]: it updates the state
    of the socket, then runs the listener of the event. *)
Definition dispatch (i : nat) (ev : SocketEvent) (st : State) : State :=
  let st1 :=
    match ev with
    | ev_open => set_network (socket st) (set_readyState i OPEN (sockets st)) (timers st) st
    | ev_close _ _ _ => set_network (socket st) (set_readyState i CLOSED (sockets st)) (timers st) st
    | _ => st
    end in
  match nth_error (sockets st1) i with
  | Some s =>
      if listening s then
        match ev with
        | ev_open => st1
        | ev_message data => on_message data st1
        | ev_close _ _ _ => on_close st1
        | ev_error => st1
        end
      else st1
  | None => st1
  end.

Definition run_callback (cb : Callback) (st : State) : State :=
  match cb with
  | connectWebSocket_cb => connectWebSocket st
  end.

(** The browser runs the oldest pending timer. *)
Definition fire_timer (st : State) : State :=
  match timers st with
  | [] => st
  | t :: rest => run_callback (callback t) (set_network (socket st) (sockets st) rest st)
  end.

(** *** Animation loop *)

(** What one pulse puts on the canvas in a frame. *)
Record Draw := {
    draw_x : number;
    draw_y : number;
    draw_radius : number;
    globalAlpha : number;
    draw_rgb : Color.Rgb
  }.

Definition lifeT_of (age : number) : number :=
  Num.Math_min (Num.Fin 1) (Num.div age PULSE_LIFETIME).

Definition bell_of (lifeT : number) : number :=
  Num.Math_sin (Num.mul Num.Math_PI lifeT).

Definition alpha_of (bell : number) : number :=
  Num.mul MAX_PULSE_ALPHA bell.

(** The opacity the loop computes for a pulse of a given age. *)
Definition opacity (age : number) : number :=
  alpha_of (bell_of (lifeT_of age)).

(** [pulses.splice(i, 1)]. *)
Fixpoint splice1 (i : nat) (ps : list Pulse) : list Pulse :=
  match i, ps with
  | _, [] => []
  | O, _ :: rest => rest
  | S i', p :: rest => p :: splice1 i' rest
  end.

(** The object at index [i], after it was updated in place. *)
Fixpoint store (i : nat) (p : Pulse) (ps : list Pulse) : list Pulse :=
  match i, ps with
  | _, [] => []
  | O, _ :: rest => p :: rest
  | S i', q :: rest => q :: store i' p rest
  end.

(** [pulse.age += deltaSec; pulse.radius += GROWTH_RATE * deltaSec]. *)
Definition advance (deltaSec : number) (pulse : Pulse) : Pulse :=
  {| normX := normX pulse; normY := normY pulse; rgb := rgb pulse;
     radius := Num.add (radius pulse) (Num.mul GROWTH_RATE deltaSec);
     age := Num.add (age pulse) deltaSec |}.

(** The body of the [for] loop at index [i]. *)
Definition animate_body (deltaSec : number) (cw ch : number) (i : nat)
    (acc : list Pulse * list Draw) : list Pulse * list Draw :=
  let '(ps, draws) := acc in
  match nth_error ps i with
  | None => acc
  | Some pulse0 =>
      let pulse := advance deltaSec pulse0 in
      let lifeT := lifeT_of (age pulse) in
      let bell := bell_of lifeT in
      let alpha := alpha_of bell in
      if Num.ge lifeT (Num.Fin 1) then (splice1 i ps, draws)
      else
        let x := Num.mul (normX pulse) cw in
        let y := Num.mul (normY pulse) ch in
        (store i pulse ps,
         draws ++ [{| draw_x := x; draw_y := y; draw_radius := radius pulse;
                      globalAlpha := alpha; draw_rgb := rgb pulse |}])
  end.

(** [for (let i = n - 1; i >= 0; i -= 1)]. *)
Fixpoint animate_loop (deltaSec : number) (cw ch : number) (n : nat)
    (acc : list Pulse * list Draw) : list Pulse * list Draw :=
  match n with
  | O => acc
  | S i => animate_loop deltaSec cw ch i (animate_body deltaSec cw ch i acc)
  end.

Definition deltaSec_of (now last : number) : number :=
  Num.Math_min (Num.div (Num.sub now last) (Num.Fin 1000)) (Num.Fin 0.05).

(** [animate(now)]: the new state and what the frame draws, in order. The
    trailing fade and the picker handle are painted whatever the pulses
    are. The calls on the canvas are taken to return: they do for finite
    positions and radii that are not negative. *)
Definition animate (now : number) (st : State) : State * list Draw :=
  let deltaSec := deltaSec_of now (lastTime st) in
  let st1 := set_lastTime now st in
  let '(ps, draws) :=
    animate_loop deltaSec (cssWidth st1) (cssHeight st1)
                 (List.length (pulses st1)) (pulses st1, []) in
  (set_pulses ps st1, draws).

(** The coordinate the ['message'] listener hands to [spawnPulse] for a
    received coordinate [v], on a canvas dimension [dim]. *)
Definition received_norm (v : number) (dim : N) : number :=
  Num.div (Num.mul (Num.Math_max (Num.Fin 0) (Num.Math_min (Num.Fin 1) v))
                   (Num.ofN dim))
          (Num.ofN dim).

(** A freshly spawned pulse. *)
Definition newPulse (normX normY : number) (rgb : Color.Rgb) : Pulse :=
  {| normX := normX; normY := normY; rgb := rgb;
     radius := Num.Fin 0; age := Num.Fin 0 |}.

(** The connection is lost again and again: each time the browser reports
    the close of the current socket, then the pending timer fires. *)
Fixpoint lose (closes : list (N * jsstring * bool)) (st : State) : State :=
  match closes with
  | [] => st
  | (code, reason, wasClean) :: rest =>
      match socket st with
      | Some i => lose rest (fire_timer (dispatch i (ev_close code reason wasClean) st))
      | None => st
      end
  end.

(** The script as it is loaded, on a page whose colour input holds
    [color0]: no pulse, the picker not yet placed, a canvas of the default
    size 300 x 150, no socket. *)
Definition loaded (color0 : jsstring) (r : Rect) (dpr now : number) : State :=
  {| pulses := [];
     colorPicker :=
       {| Picker.input_value := color0;
          Picker.radius := Num.Fin 20; Picker.margin := Num.Fin 24;
          Picker.x := None; Picker.y := None;
          Picker.isDragging := false; Picker.pointerId := None;
          Picker.isPointerCapture := false;
          Picker.dragStartX := Some (Num.Fin 0);
          Picker.dragStartY := Some (Num.Fin 0);
          Picker.pointerStartX := Num.Fin 0;
          Picker.pointerStartY := Num.Fin 0 |};
     cssWidth := Num.Fin 0; cssHeight := Num.Fin 0;
     deviceRatio := orOne dpr;
     canvas_width := 300; canvas_height := 150;
     rect := r; devicePixelRatio := dpr;
     socket := None; sockets := []; timers := [];
     lastTime := now; console_errors := 0 |}.

(** The part of [init] the state depends on: the canvas is sized and the
    socket is opened (the listeners of the page and the support prompt
    leave the state alone). *)
Definition init (color0 : jsstring) (r : Rect) (dpr now : number) : State :=
  connectWebSocket (resizeCanvas (loaded color0 r dpr now)).

(** A pulse whose normalized age has reached 1. *)
Definition expired (pulse : Pulse) : bool :=
  Num.ge (lifeT_of (age pulse)) (Num.Fin 1).

(** The pulses a frame keeps, each advanced by [deltaSec]. *)
Definition survivors (deltaSec : number) (ps : list Pulse) : list Pulse :=
  List.filter (fun pulse => negb (expired pulse)) (List.map (advance deltaSec) ps).

(** What the loop draws for a pulse it keeps. *)
Definition draw_of (cw ch : number) (pulse : Pulse) : Draw :=
  {| draw_x := Num.mul (normX pulse) cw;
     draw_y := Num.mul (normY pulse) ch;
     draw_radius := radius pulse;
     globalAlpha := opacity (age pulse);
     draw_rgb := rgb pulse |}.


(** Successive frames, at the time stamps [nows]. *)
Fixpoint frames (nows : list number) (st : State) : State :=
  match nows with
  | [] => st
  | now :: rest => frames rest (fst (animate now st))
  end.

(** The script holds a socket that carries its listeners, and no timer is
    pending: the state [connectWebSocket] leaves. *)
Definition attached (st : State) : Prop :=
  timers st = []
  /\ exists i s,
       socket st = Some i /\ nth_error (sockets st) i = Some s
       /\ listening s = true.

(** The timer the ['close'] listener sets. *)
Definition retry : Timer := {| delay := 500; callback := connectWebSocket_cb |}.

End Client.

(* ================================================================== *)
(** ** script.js: the colour of the handle *)

Module Palette.

(** The digit of [Number.prototype.toString(16)] for a value below 16. *)
Definition digitChar (d : N) : N :=
  if N.ltb d 10 then (48 + d)%N else (87 + d)%N.

Fixpoint toString16_aux (fuel : nat) (n : N) (acc : jsstring) : jsstring :=
  match fuel with
  | O => acc
  | S fuel' =>
      let acc' := digitChar (n mod 16) :: acc in
      if N.eqb (n / 16) 0 then acc' else toString16_aux fuel' (n / 16) acc'
  end.

(** [n.toString(16)] for an integer [n] that is not negative. *)
Definition toString16 (n : N) : jsstring :=
  toString16_aux (S (N.to_nat (N.log2 n))) n [].

(** [s.padStart(2, '0')]. *)
Definition padStart2 (s : jsstring) : jsstring :=
  match s with
  | [] => [48; 48]%N
  | [c] => [48%N; c]
  | _ => s
  end.

(** [Math.floor(Math.random() * 200) + 30], for the value [u] that
    [Math.random()] returned. *)
Definition channel (u : R) : Z := (Int_part (u * 200) + 30)%Z.

Definition hex2 (n : Z) : jsstring := padStart2 (toString16 (Z.to_N n)).

(** [randomColor], for the three values drawn. *)
Definition randomColor (u1 u2 u3 : R) : jsstring :=
  let r := hex2 (channel u1) in
  let g := hex2 (channel u2) in
  let b := hex2 (channel u3) in
  Color.hash :: r ++ g ++ b.

End Palette.

(* ================================================================== *)
(** ** script.js: dragging the handle *)

Module Drag.

(** [a !== b] on pointer identifiers; [None] is [null]. *)
Definition differs (a b : option N) : bool :=
  match a, b with
  | Some x, Some y => negb (N.eqb x y)
  | None, None => false
  | _, _ => true
  end.

(** The picker with its centre moved. *)
Definition moveTo (x y : number) (cp : Picker.t) : Picker.t :=
  {| Picker.input_value := Picker.input_value cp;
     Picker.radius := Picker.radius cp; Picker.margin := Picker.margin cp;
     Picker.x := Some x; Picker.y := Some y;
     Picker.isDragging := Picker.isDragging cp;
     Picker.pointerId := Picker.pointerId cp;
     Picker.isPointerCapture := Picker.isPointerCapture cp;
     Picker.dragStartX := Picker.dragStartX cp;
     Picker.dragStartY := Picker.dragStartY cp;
     Picker.pointerStartX := Picker.pointerStartX cp;
     Picker.pointerStartY := Picker.pointerStartY cp |}.

(** The picker once the drag is over. *)
Definition release (cp : Picker.t) : Picker.t :=
  {| Picker.input_value := Picker.input_value cp;
     Picker.radius := Picker.radius cp; Picker.margin := Picker.margin cp;
     Picker.x := Picker.x cp; Picker.y := Picker.y cp;
     Picker.isDragging := false;
     Picker.pointerId := None;
     Picker.isPointerCapture := false;
     Picker.dragStartX := Picker.dragStartX cp;
     Picker.dragStartY := Picker.dragStartY cp;
     Picker.pointerStartX := Picker.pointerStartX cp;
     Picker.pointerStartY := Picker.pointerStartY cp |}.

(** The four lines that follow the pointer, shared by [handlePointerMove]
    and [handleTouchMove]. *)
Definition follow (p : Client.Position) (st : Client.State) : Client.State :=
  let cp := Client.colorPicker st in
  let deltaX := Num.sub (Client.x p) (Picker.pointerStartX cp) in
  let deltaY := Num.sub (Client.y p) (Picker.pointerStartY cp) in
  let x := Num.add (Client.orZero (Picker.dragStartX cp)) deltaX in
  let y := Num.add (Client.orZero (Picker.dragStartY cp)) deltaY in
  Client.positionColorPicker (Client.set_colorPicker (moveTo x y cp) st).

Definition handlePointerMove (event : PointerEvent.t) (st : Client.State)
    : Client.State :=
  let cp := Client.colorPicker st in
  if negb (Picker.isDragging cp)
     || differs (Some (PointerEvent.pointerId event)) (Picker.pointerId cp)
  then st
  else follow (Client.getPointerPosition event st) st.

(** [finishColorPickerDrag], for the [pointerId] of its event: the new
    state, and whether [openColorPicker] is called. Releasing the pointer
    capture acts on the page only. *)
Definition finishColorPickerDrag (event_pointerId : option N)
    (shouldTriggerPicker : bool) (st : Client.State) : Client.State * bool :=
  let cp := Client.colorPicker st in
  if negb (Picker.isDragging cp)
     || differs event_pointerId (Picker.pointerId cp)
  then (st, false)
  else
    let moved :=
      Num.Math_hypot
        (Num.sub (Client.orZero (Picker.x cp)) (Client.orZero (Picker.dragStartX cp)))
        (Num.sub (Client.orZero (Picker.y cp)) (Client.orZero (Picker.dragStartY cp))) in
    (Client.set_colorPicker (release cp) st,
     shouldTriggerPicker && Num.lt moved (Num.Fin 3)).

Definition handlePointerUp (event : PointerEvent.t) (st : Client.State)
    : Client.State * bool :=
  finishColorPickerDrag (Some (PointerEvent.pointerId event)) true st.

Definition handlePointerCancel (event : PointerEvent.t) (st : Client.State)
    : Client.State * bool :=
  finishColorPickerDrag (Some (PointerEvent.pointerId event)) false st.

(** [findTouchById]: the first touch of the list with the identifier. *)
Fixpoint findTouchById (touchList : list Touch.t) (id : option N)
    : option Touch.t :=
  match touchList with
  | [] => None
  | touch :: rest =>
      if differs (Some (Touch.identifier touch)) id
      then findTouchById rest id
      else Some touch
  end.

Definition handleTouchMove (touches : list Touch.t) (st : Client.State)
    : Client.State :=
  let cp := Client.colorPicker st in
  if negb (Picker.isDragging cp) then st
  else
    match findTouchById touches (Picker.pointerId cp) with
    | None => st
    | Some touch => follow (Client.getTouchPosition touch st) st
    end.

Definition handleTouchEnd (changedTouches : list Touch.t) (st : Client.State)
    : Client.State * bool :=
  let cp := Client.colorPicker st in
  if negb (Picker.isDragging cp) then (st, false)
  else
    match findTouchById changedTouches (Picker.pointerId cp) with
    | None => (st, false)
    | Some _ => finishColorPickerDrag (Picker.pointerId cp) true st
    end.

Definition handleTouchCancel (changedTouches : list Touch.t) (st : Client.State)
    : Client.State * bool :=
  let cp := Client.colorPicker st in
  if negb (Picker.isDragging cp) then (st, false)
  else
    match findTouchById changedTouches (Picker.pointerId cp) with
    | None => (st, false)
    | Some _ => finishColorPickerDrag (Picker.pointerId cp) false st
    end.

(** The handle lies between its radius and the far edge minus its radius
    (or at its radius, on a surface narrower than the handle). *)
Definition placed (cp : Picker.t) (cw ch : R) : Prop :=
  exists r x y,
    Picker.radius cp = Num.Fin r
    /\ Picker.x cp = Some (Num.Fin x) /\ Picker.y cp = Some (Num.Fin y)
    /\ (r <= x <= Rmax r (cw - r))%R /\ (r <= y <= Rmax r (ch - r))%R.

End Drag.

(* ================================================================== *)
(** ** The relay and the clients over several frames *)

Module Traffic.

(** The frame the message handler of the relay hands to [broadcast], if it
    hands one. *)
Definition forwarded (data : text) : option json :=
  match JSON_parse data with
  | Throw _ => None
  | Ok parsed =>
      let o := orEmptyObject parsed in
      if checked parsed then
        JSON_stringify (VObj [(Relay.k_type, get o Relay.k_type);
                              (Relay.k_xNorm, get o Relay.k_xNorm);
                              (Relay.k_yNorm, get o Relay.k_yNorm);
                              (Relay.k_color, get o Relay.k_color)])
      else None
  end.

(** The relay handles the frames of [inbound], in their order of arrival. *)
Fixpoint relay (inbound : list text) (clients : list Relay.Client)
    : list Relay.Client :=
  match inbound with
  | [] => clients
  | data :: rest => relay rest (Relay.on_message data clients)
  end.

(** The frames forwarded for [inbound], in order. *)
Fixpoint forwardedAll (inbound : list text) : list json :=
  match inbound with
  | [] => []
  | data :: rest =>
      match forwarded data with
      | Some frame => frame :: forwardedAll rest
      | None => forwardedAll rest
      end
  end.

(** A frame of four members [type], [xNorm], [yNorm], [color], in this
    order, whose coordinates are numbers or [null]. *)
Definition fourFields (frame : json) : Prop :=
  exists x y c,
    frame = Relay.pulse_frame x y c
    /\ ((exists r, x = JNum r) \/ x = JNull)
    /\ ((exists r, y = JNum r) \/ y = JNull).

(** The clamped elapsed times of successive frames at the time stamps
    [nows], starting from [last]. *)
Fixpoint deltas (last : R) (nows : list R) : list R :=
  match nows with
  | [] => []
  | now :: rest => Rmin ((now - last) / 1000) 0.05 :: deltas now rest
  end.

(** A pulse after successive frames of the given elapsed times. *)
Fixpoint advanceAll (ds : list R) (pulse : Client.Pulse) : Client.Pulse :=
  match ds with
  | [] => pulse
  | d :: rest => advanceAll rest (Client.advance (Num.Fin d) pulse)
  end.

(** Successive time stamps at least [gap] milliseconds apart. *)
Fixpoint spaced (gap last : R) (nows : list R) : Prop :=
  match nows with
  | [] => True
  | now :: rest => (gap <= now - last)%R /\ spaced gap now rest
  end.

End Traffic.

(* ================================================================== *)
(** * Theorems *)

(** ** Strings and the pulse-event check *)

Lemma jsstring_eqb_eq (a b : jsstring) : JsString.eqb a b = true <-> a = b.
Proof.
  revert b; induction a as [|x a IH]; intros [|y b]; simpl; split;
    try congruence; try reflexivity.
  - intros H. apply andb_true_iff in H as [Hx Hab].
    apply N.eqb_eq in Hx. apply IH in Hab. congruence.
  - intros H. injection H as -> ->.
    rewrite N.eqb_refl. simpl. now apply IH.
Qed.

Lemma isString_true (v : value) (s : jsstring) :
  isString v s = true <-> v = VStr s.
Proof.
  destruct v; simpl; split; try congruence.
  - intros H. apply jsstring_eqb_eq in H. now subst.
  - intros H. injection H as ->. now apply jsstring_eqb_eq.
Qed.

Lemma typeof_number (v : value) :
  type_eqb (typeof v) TNumber = true <-> exists n, v = VNum n.
Proof.
  destruct v; simpl; split; try congruence; try (intros [? ?]; congruence).
  intros _. now eexists.
Qed.

Lemma typeof_string (v : value) :
  type_eqb (typeof v) TString = true <-> exists s, v = VStr s.
Proof.
  destruct v; simpl; split; try congruence; try (intros [? ?]; congruence).
  intros _. now eexists.
Qed.

Lemma get_defined (v x : value) (k : jsstring) :
  x <> VUndefined -> get v k = x ->
  exists props, v = VObj props /\ lookup k props = Some x.
Proof.
  intros Hx. destruct v; simpl; try congruence.
  intros H. exists props. split; [reflexivity|].
  destruct (lookup k props); congruence.
Qed.

Lemma orEmptyObject_obj (v : value) (props : list (jsstring * value)) :
  orEmptyObject v = VObj props -> props <> [] -> v = VObj props.
Proof.
  unfold orEmptyObject. destruct (truthy v); congruence.
Qed.

(** The check holds exactly on the values of the pulse-event schema, and
    then the four names read the four validated fields. *)
Lemma checked_true (parsed : value) :
  checked parsed = true ->
  exists props x y c,
    parsed = VObj props
    /\ lookup Relay.k_type props = Some (VStr Relay.s_pulse)
    /\ lookup Relay.k_xNorm props = Some (VNum x)
    /\ lookup Relay.k_yNorm props = Some (VNum y)
    /\ lookup Relay.k_color props = Some (VStr c).
Proof.
  unfold checked. intros H.
  repeat (apply andb_true_iff in H as [H ?]).
  apply isString_true in H.
  apply get_defined in H as (props & Ho & Ht); [|discriminate].
  assert (Hp : parsed = VObj props).
  { apply orEmptyObject_obj; [assumption|].
    intros ->. discriminate. }
  rewrite Ho in *. clear Ho.
  match goal with
  | Hx : type_eqb (typeof (get _ Relay.k_xNorm)) _ = true,
    Hy : type_eqb (typeof (get _ Relay.k_yNorm)) _ = true,
    Hc : type_eqb (typeof (get _ Relay.k_color)) _ = true |- _ =>
      apply typeof_number in Hx as [x Hx];
      apply typeof_number in Hy as [y Hy];
      apply typeof_string in Hc as [c Hc];
      apply get_defined in Hx as (px & Ex & Hx); [|discriminate];
      apply get_defined in Hy as (py & Ey & Hy); [|discriminate];
      apply get_defined in Hc as (pc & Ec & Hc); [|discriminate];
      injection Ex as <-; injection Ey as <-; injection Ec as <-;
      exists props, x, y, c; repeat split; assumption
  end.
Qed.

Lemma pulse_value_checked (parsed : value) :
  Relay.pulse_value parsed -> checked parsed = true.
Proof.
  intros (props & x & y & c & -> & Ht & Hx & Hy & Hc).
  unfold checked, orEmptyObject. simpl.
  rewrite Ht, Hx, Hy, Hc. reflexivity.
Qed.

Lemma checked_iff (parsed : value) :
  checked parsed = true <-> Relay.pulse_value parsed.
Proof.
  split; [apply checked_true | apply pulse_value_checked].
Qed.

(** ** Numbers *)

Ltac split_reals :=
  repeat match goal with
    | |- context [Rle_dec ?a ?b] => destruct (Rle_dec a b)
    | |- context [Rlt_dec ?a ?b] => destruct (Rlt_dec a b)
    | |- context [Req_dec_T ?a ?b] => destruct (Req_dec_T a b)
    end.

Lemma add_Fin (a b : R) : Num.add (Num.Fin a) (Num.Fin b) = Num.Fin (a + b).
Proof. reflexivity. Qed.

Lemma sub_Fin (a b : R) : Num.sub (Num.Fin a) (Num.Fin b) = Num.Fin (a - b).
Proof. reflexivity. Qed.

Lemma mul_Fin (a b : R) : Num.mul (Num.Fin a) (Num.Fin b) = Num.Fin (a * b).
Proof. reflexivity. Qed.

Lemma div_Fin (a b : R) :
  b <> 0%R -> Num.div (Num.Fin a) (Num.Fin b) = Num.Fin (a / b).
Proof.
  intros Hb. simpl. destruct (Req_dec_T b 0); [contradiction|reflexivity].
Qed.

Lemma min_Fin (a b : R) :
  Num.Math_min (Num.Fin a) (Num.Fin b) = Num.Fin (Rmin a b).
Proof.
  unfold Num.Math_min, Num.le, Rmin. destruct (Rle_dec a b); reflexivity.
Qed.

Lemma max_Fin (a b : R) :
  Num.Math_max (Num.Fin a) (Num.Fin b) = Num.Fin (Rmax a b).
Proof.
  unfold Num.Math_max, Num.le, Rmax. destruct (Rle_dec a b); reflexivity.
Qed.

Lemma ge_Fin (a b : R) :
  Num.ge (Num.Fin a) (Num.Fin b) = true <-> (b <= a)%R.
Proof.
  unfold Num.ge, Num.le. destruct (Rle_dec b a); split; congruence || tauto.
Qed.

Create Rewrite HintDb num_fin.
#[global] Hint Rewrite add_Fin sub_Fin mul_Fin min_Fin max_Fin : num_fin.

Ltac solve_minmax :=
  repeat first [ rewrite Rmax_right by lra | rewrite Rmax_left by lra
               | rewrite Rmin_left by lra | rewrite Rmin_right by lra ];
  try lra.


(** NaN goes through it. *)
Lemma clamp_NaN :
  Num.Math_max (Num.Fin 0) (Num.Math_min (Num.Fin 1) Num.NaN) = Num.NaN.
Proof. reflexivity. Qed.

Lemma ofN_positive (dim : N) : dim <> 0%N -> (0 < IZR (Z.of_N dim))%R.
Proof. intros H. apply IZR_lt. lia. Qed.

(** A normalized coordinate of [0, 1] is drawn inside the surface. *)
Lemma pixel_within (n : number) (w : R) :
  Num.within 0 1 n -> (0 <= w)%R -> Num.within 0 w (Num.mul n (Num.Fin w)).
Proof.
  destruct n as [| |c|]; simpl; try contradiction.
  intros [H0 H1] Hw. nra.
Qed.

(** A point farther from the picker centre than its radius is outside. *)
Lemma hypot_outside (dx dy r : R) :
  (0 <= r)%R -> (r * r < dx * dx + dy * dy)%R ->
  Num.le (Num.Math_hypot (Num.Fin dx) (Num.Fin dy)) (Num.Fin r) = false.
Proof.
  intros Hr Hlt. simpl.
  destruct (Rle_dec (sqrt (dx * dx + dy * dy)) r) as [Hle|]; [|reflexivity].
  exfalso.
  assert (Hs : (0 <= dx * dx + dy * dy)%R) by nra.
  pose proof (sqrt_sqrt _ Hs) as Hsq.
  pose proof (sqrt_pos (dx * dx + dy * dy)) as Hp.
  nra.
Qed.

Lemma Math_round_eval (x : R) (z : Z) :
  (IZR z - / 2 <= x < IZR z + / 2)%R ->
  Num.Math_round (Num.Fin x) = Num.Fin (IZR z).
Proof.
  intros H. simpl. f_equal. f_equal. symmetry.
  apply Int_part_spec. lra.
Qed.

Lemma toDimension_int (z : Z) : Num.toDimension (Num.Fin (IZR z)) = Z.to_N z.
Proof.
  simpl. f_equal. symmetry. apply Int_part_spec. lra.
Qed.

(** ** JSON texts *)

Lemma overflow_large : (1000 <= overflow)%R.
Proof.
  unfold overflow. apply IZR_le.
  apply Z.leb_le. vm_compute. reflexivity.
Qed.

Lemma numberOfLiteral_finite (x : R) :
  (- overflow < x < overflow)%R -> numberOfLiteral x = Num.Fin x.
Proof.
  intros [Hlo Hhi]. unfold numberOfLiteral.
  destruct (Rle_dec overflow x); [lra|].
  destruct (Rle_dec x (- overflow)); [lra|reflexivity].
Qed.

Lemma numberOfLiteral_small (x : R) :
  (-100 <= x <= 100)%R -> numberOfLiteral x = Num.Fin x.
Proof.
  intros H. apply numberOfLiteral_finite.
  pose proof overflow_large. lra.
Qed.

Lemma numberOfLiteral_huge (z : Z) :
  (2 ^ 1024 - 2 ^ 970 <=? z)%Z = true -> numberOfLiteral (IZR z) = Num.PosInf.
Proof.
  intros H. apply Z.leb_le in H. apply IZR_le in H.
  unfold numberOfLiteral. fold overflow in H.
  destruct (Rle_dec overflow (IZR z)); [reflexivity|contradiction].
Qed.


(** The numbers of a parsed JSON text are never NaN. *)
Lemma lookup_setProp (k k0 : jsstring) (v v0 : value)
  (acc : list (jsstring * value)) :
  lookup k (setProp k0 v0 acc) = Some v ->
  v = v0 \/ lookup k acc = Some v.
Proof.
  induction acc as [|[k' v'] acc IH]; simpl.
  - destruct (JsString.eqb k0 k); [left; congruence|discriminate].
  - destruct (JsString.eqb k' k0) eqn:E0; simpl.
    + destruct (JsString.eqb k' k); [left; congruence|now right].
    + destruct (JsString.eqb k' k); [now right|exact IH].
Qed.

Lemma lookup_members (k : jsstring) (v : value)
  (members : list (jsstring * json)) (acc : list (jsstring * value)) :
  lookup k (List.fold_left
              (fun acc member => setProp (fst member) (reify (snd member)) acc)
              members acc) = Some v ->
  (exists j, v = reify j) \/ lookup k acc = Some v.
Proof.
  revert acc. induction members as [|[k0 j0] members IH]; intros acc; simpl.
  - now right.
  - intros H. apply IH in H as [H|H]; [now left|].
    apply lookup_setProp in H as [->|H]; [left; now eexists|now right].
Qed.


(** The frame the relay builds from the four validated fields. *)
Lemma stringify_pulse (x y : number) (c : jsstring) :
  JSON_stringify (VObj [(Relay.k_type, VStr Relay.s_pulse); (Relay.k_xNorm, VNum x);
                        (Relay.k_yNorm, VNum y); (Relay.k_color, VStr c)])
  = Some (Relay.pulse_frame (Relay.written x) (Relay.written y) c).
Proof.
  unfold Relay.pulse_frame, Relay.written.
  destruct x, y; reflexivity.
Qed.

(** ** The relay *)

(** A frame of the schema is forwarded: the relay broadcasts the four
    fields as [JSON.stringify] writes them. *)
Lemma relay_forwards (data : text) (clients : list Relay.Client) :
  Relay.pulse_schema data ->
  exists j props x y c,
    data = Doc j /\ reify j = VObj props
    /\ lookup Relay.k_xNorm props = Some (VNum x)
    /\ lookup Relay.k_yNorm props = Some (VNum y)
    /\ lookup Relay.k_color props = Some (VStr c)
    /\ Relay.on_message data clients
       = Relay.broadcast (Relay.pulse_frame (Relay.written x) (Relay.written y) c) clients.
Proof.
  intros (j & -> & props & x & y & c & Hv & Ht & Hx & Hy & Hc).
  exists j, props, x, y, c. repeat (split; [assumption || reflexivity|]).
  unfold Relay.on_message, Relay.message_try. simpl JSON_parse. cbv zeta.
  rewrite Hv. unfold orEmptyObject. simpl truthy. cbv iota.
  unfold get. rewrite Ht, Hx, Hy, Hc.
  replace (isString (VStr Relay.s_pulse) Relay.s_pulse) with true by reflexivity.
  simpl typeof. simpl type_eqb. simpl andb. simpl negb. cbv iota.
  rewrite stringify_pulse. reflexivity.
Qed.

(** Any other frame is dropped: the connections are left as they were. *)
Lemma relay_drops (data : text) (clients : list Relay.Client) :
  ~ Relay.pulse_schema data -> Relay.on_message data clients = clients.
Proof.
  intros Hn. unfold Relay.on_message, Relay.message_try.
  destruct data as [raw|j]; simpl JSON_parse; [reflexivity|]. cbv zeta.
  destruct (checked (reify j)) eqn:Hc.
  - exfalso. apply Hn. exists j. split; [reflexivity|].
    now apply checked_iff.
  - unfold checked in Hc. cbv zeta in Hc. rewrite Hc. reflexivity.
Qed.

(** The effect of a broadcast on one connection. *)
Lemma broadcast_nth (frame : json) (clients : list Relay.Client) (i : nat)
  (client : Relay.Client) :
  nth_error clients i = Some client ->
  nth_error (Relay.broadcast frame clients) i
  = Some (if isOPEN (Relay.readyState client)
          then {| Relay.readyState := Relay.readyState client;
                  Relay.sent := Relay.sent client ++ [frame] |}
          else client).
Proof.
  intros H. unfold Relay.broadcast.
  rewrite nth_error_map, H. reflexivity.
Qed.

Lemma broadcast_length (frame : json) (clients : list Relay.Client) :
  List.length (Relay.broadcast frame clients) = List.length clients.
Proof. unfold Relay.broadcast. apply length_map. Qed.

(** C1 (evaluation at the failing input). The frame
    [{"type":"pulse","xNorm":1e999,"yNorm":0.5,"color":"#ff0000"}] satisfies
    the pulse-event schema: [JSON.parse] reads [1e999] as [Infinity], whose
    [typeof] is ["number"]. The relay forwards it to both open connections,
    the sender included, with exactly the four fields, but [xNorm] is
    written [null]: the value forwarded is not the value received. *)
Theorem relay_forwards_infinity_as_null :
  let received :=
    JObj [(Relay.k_type, JStr Relay.s_pulse);
          (Relay.k_xNorm, JNum (IZR (10 ^ 999)));
          (Relay.k_yNorm, JNum (1 / 2));
          (Relay.k_color, JStr (lit "#ff0000"))] in
  let forwarded :=
    JObj [(Relay.k_type, JStr Relay.s_pulse);
          (Relay.k_xNorm, JNull);
          (Relay.k_yNorm, JNum (1 / 2));
          (Relay.k_color, JStr (lit "#ff0000"))] in
  let sender := {| Relay.readyState := OPEN; Relay.sent := [] |} in
  let peer := {| Relay.readyState := OPEN; Relay.sent := [] |} in
  Relay.pulse_schema (Doc received)
  /\ Relay.on_message (Doc received) [sender; peer]
     = [ {| Relay.readyState := OPEN; Relay.sent := [forwarded] |};
         {| Relay.readyState := OPEN; Relay.sent := [forwarded] |} ]
  /\ forwarded <> received.
Proof.
  intros received forwarded sender peer.
  assert (Hbig : numberOfLiteral (IZR (10 ^ 999)) = Num.PosInf).
  { apply numberOfLiteral_huge. vm_compute. reflexivity. }
  assert (Hhalf : numberOfLiteral (1 / 2) = Num.Fin (1 / 2)).
  { apply numberOfLiteral_small. lra. }
  assert (Hv : reify received
               = VObj [(Relay.k_type, VStr Relay.s_pulse);
                       (Relay.k_xNorm, VNum Num.PosInf);
                       (Relay.k_yNorm, VNum (Num.Fin (1 / 2)));
                       (Relay.k_color, VStr (lit "#ff0000"))]).
  { unfold received. cbn [reify List.fold_left fst snd]. rewrite Hbig, Hhalf. reflexivity. }
  assert (Hs : Relay.pulse_schema (Doc received)).
  { exists received. split; [reflexivity|]. rewrite Hv.
    do 4 eexists. split; [reflexivity|]. repeat split; reflexivity. }
  split; [exact Hs|]. split.
  - destruct (relay_forwards [sender; peer] Hs)
      as (j & props & x & y & c & Hj & Hp & Hx & Hy & Hc & ->).
    injection Hj as <-. rewrite Hv in Hp. injection Hp as <-.
    injection Hx as <-. injection Hy as <-. injection Hc as <-.
    reflexivity.
  - unfold forwarded, received. intros H. discriminate H.
Qed.

(** C2. A frame that is not JSON, or whose value fails the pulse-event
    schema, changes nothing: no connection receives anything (the sender
    gets no error), no socket changes state, and a valid frame that comes
    next is broadcast as if the bad one had never arrived. *)
Theorem relay_drops_malformed (data : text) (clients : list Relay.Client) :
  (exists raw, data = Malformed raw)
  \/ (exists j, data = Doc j /\ ~ Relay.pulse_value (reify j)) ->
  Relay.on_message data clients = clients
  /\ forall valid, Relay.pulse_schema valid ->
       exists x y c,
         Relay.on_message valid (Relay.on_message data clients)
         = Relay.broadcast (Relay.pulse_frame x y c) clients.
Proof.
  intros Hbad.
  assert (Hn : ~ Relay.pulse_schema data).
  { intros (j & Hj & Hv). destruct Hbad as [[raw ->]|(j' & -> & Hn)].
    - discriminate.
    - injection Hj as <-. contradiction. }
  rewrite (relay_drops clients Hn). split; [reflexivity|].
  intros valid Hvalid.
  destruct (relay_forwards clients Hvalid)
    as (j & props & x & y & c & _ & _ & _ & _ & _ & ->).
  now exists (Relay.written x), (Relay.written y), c.
Qed.

Lemma relay_drops_malformed_witness :
  let client := {| Relay.readyState := OPEN; Relay.sent := [] |} in
  Relay.on_message (Malformed (lit "{oops")) [client] = [client]
  /\ Relay.on_message (Doc (JObj [(Relay.k_type, JStr (lit "ping"))])) [client]
     = [client].
Proof.
  intros client. split.
  - apply (relay_drops_malformed [client]).
    left. eexists. reflexivity.
  - apply (relay_drops_malformed [client]).
    right. eexists. split; [reflexivity|].
    intros (props & x & y & c & Hv & Ht & _).
    injection Hv as <-. discriminate Ht.
Defined.

(** ** Listening *)

(** The port is the one the environment supplies, 3000 by default. *)
Lemma HTTP_PORT_policy (s : jsstring) :
  s <> [] ->
  Relay.HTTP_PORT (Some s) = Relay.PortName s
  /\ Relay.HTTP_PORT None = Relay.PortNumber 3000
  /\ Relay.HTTP_PORT (Some []) = Relay.PortNumber 3000.
Proof.
  intros Hs. split; [destruct s; [congruence|reflexivity]|].
  split; reflexivity.
Qed.

(** When the server listens, it is on that port and on every interface. *)
Lemma server_listen_primary (env_PORT : option jsstring) (bound : N -> bool)
  (h : jsstring) (n : N) :
  Relay.server_listen env_PORT bound = Relay.Listening h n ->
  h = lit "0.0.0.0"
  /\ Relay.portNumber (Relay.HTTP_PORT env_PORT) = Some n
  /\ bound n = false.
Proof.
  unfold Relay.server_listen.
  destruct (Relay.portNumber (Relay.HTTP_PORT env_PORT)) as [m|]; [|discriminate].
  destruct (N.ltb m 65536); [|discriminate].
  destruct (bound m) eqn:Hb; [discriminate|].
  intros [= <- <-]. repeat split; assumption || reflexivity.
Qed.

Lemma server_listen_free (env_PORT : option jsstring) (bound : N -> bool) (n : N) :
  Relay.portNumber (Relay.HTTP_PORT env_PORT) = Some n ->
  (n < 65536)%N -> bound n = false ->
  Relay.server_listen env_PORT bound = Relay.Listening (lit "0.0.0.0") n.
Proof.
  intros Hn Hr Hb. unfold Relay.server_listen. rewrite Hn.
  apply N.ltb_lt in Hr. rewrite Hr, Hb. reflexivity.
Qed.

(** On a port that is already bound, nothing is listened on. *)
Lemma server_listen_busy (env_PORT : option jsstring) (bound : N -> bool) (n : N) :
  Relay.portNumber (Relay.HTTP_PORT env_PORT) = Some n ->
  bound n = true ->
  Relay.server_listen env_PORT bound = Relay.Crashed.
Proof.
  intros Hn Hb. unfold Relay.server_listen. rewrite Hn, Hb.
  destruct (N.ltb n 65536); reflexivity.
Qed.

(** C7 (evaluation at the failing input). With [PORT=8080] and port 8080
    already bound, 3001 being free, [server.js] does not end up listening
    on 3001 or anywhere: [listen] fails and the process ends. The same
    happens with no [PORT] when 3000 is bound; and with no [PORT] the
    server listens on 3000, on every interface. *)
Theorem listen_has_no_fallback :
  let busy8080 := fun n => N.eqb n 8080 in
  let busy3000 := fun n => N.eqb n 3000 in
  Relay.server_listen (Some (lit "8080")) busy8080 = Relay.Crashed
  /\ Relay.server_listen None busy3000 = Relay.Crashed
  /\ Relay.server_listen None busy8080 = Relay.Listening (lit "0.0.0.0") 3000
  /\ Relay.server_listen (Some (lit "5000")) busy8080
     = Relay.Listening (lit "0.0.0.0") 5000.
Proof.
  intros busy8080 busy3000. repeat split; reflexivity.
Qed.

(** ** The colour pipeline *)

Lemma channel_range (i k : Z) : (0 <= Color.channel i k <= 255)%Z.
Proof.
  unfold Color.channel.
  change 255%Z with (Z.ones 8).
  rewrite Z.land_ones by lia.
  pose proof (Z.mod_pos_bound (Z.shiftr i k) (2 ^ 8) ltac:(lia)) as H.
  change (2 ^ 8)%Z with 256%Z in *. change (Z.ones 8) with 255%Z. lia.
Qed.

Lemma hexToRgb_str_range (hex : jsstring) :
  (0 <= Color.r (Color.hexToRgb_str hex) <= 255
   /\ 0 <= Color.g (Color.hexToRgb_str hex) <= 255
   /\ 0 <= Color.b (Color.hexToRgb_str hex) <= 255)%Z.
Proof.
  unfold Color.hexToRgb_str. cbn [Color.r Color.g Color.b].
  repeat split; apply channel_range.
Qed.

Lemma hexToRgb_str_nan (hex : jsstring) :
  Color.parseInt16 (replace_first Color.hash hex) = S754_nan ->
  Color.hexToRgb_str hex = {| Color.r := 0; Color.g := 0; Color.b := 0 |}.
Proof.
  intros H. unfold Color.hexToRgb_str. rewrite H. reflexivity.
Qed.

Example hexToRgb_ff8040 :
  Color.hexToRgb_str (lit "#ff8040")
  = {| Color.r := 255; Color.g := 128; Color.b := 64 |}.
Proof. vm_compute. reflexivity. Qed.

Example hexToRgb_negative :
  Color.hexToRgb_str (lit "#-1")
  = {| Color.r := 255; Color.g := 255; Color.b := 255 |}.
Proof. vm_compute. reflexivity. Qed.

(** ** The sync layer of the client *)



(** The canvas after [resizeCanvas], for a bounding rectangle of finite
    size at device pixel ratio 1. *)
Lemma resizeCanvas_dimensions (st : Client.State) (w h : R) (zw zh : Z) :
  Client.width (Client.rect st) = Num.Fin w ->
  Client.height (Client.rect st) = Num.Fin h ->
  Client.devicePixelRatio st = Num.Fin 1 ->
  (IZR zw - / 2 <= w < IZR zw + / 2)%R ->
  (IZR zh - / 2 <= h < IZR zh + / 2)%R ->
  let st' := Client.resizeCanvas st in
  Client.canvas_width st' = Z.to_N zw
  /\ Client.canvas_height st' = Z.to_N zh
  /\ Client.deviceRatio st' = Num.Fin 1
  /\ Client.cssWidth st' = Num.Fin w
  /\ Client.cssHeight st' = Num.Fin h
  /\ Client.rect st' = Client.rect st
  /\ Client.pulses st' = Client.pulses st
  /\ Client.socket st' = Client.socket st
  /\ Client.sockets st' = Client.sockets st.
Proof.
  intros Hw Hh Hd Hzw Hzh st'. unfold st', Client.resizeCanvas.
  rewrite Hw, Hh, Hd.
  assert (H1 : Client.orOne (Num.Fin 1) = Num.Fin 1).
  { unfold Client.orOne. simpl. destruct (Req_dec_T 1 0); [lra|reflexivity]. }
  rewrite H1. cbn [Num.mul].
  rewrite (@Math_round_eval (w * 1) zw) by lra.
  rewrite (@Math_round_eval (h * 1) zh) by lra.
  rewrite !toDimension_int.
  unfold Client.positionColorPicker.
  cbn [Client.colorPicker Client.set_canvas].
  destruct (Picker.x (Client.colorPicker st)), (Picker.y (Client.colorPicker st));
    repeat split; reflexivity.
Qed.

(** What the ['message'] listener does with a frame of the schema. *)
Lemma client_accepts (j : json) (props : list (jsstring * value))
  (x y : number) (c : jsstring) (st : Client.State) :
  reify j = VObj props ->
  lookup Relay.k_type props = Some (VStr Relay.s_pulse) ->
  lookup Relay.k_xNorm props = Some (VNum x) ->
  lookup Relay.k_yNorm props = Some (VNum y) ->
  lookup Relay.k_color props = Some (VStr c) ->
  Client.message_try (Doc j) st
  = Ok (Client.set_pulses
          (Client.pulses st
           ++ [Client.newPulse
                 (Client.received_norm x (Client.canvas_width st))
                 (Client.received_norm y (Client.canvas_height st))
                 (Color.hexToRgb_str c)]) st).
Proof.
  intros Hv Ht Hx Hy Hc.
  unfold Client.message_try, Client.message_parsed. simpl JSON_parse. cbv zeta.
  rewrite Hv. unfold orEmptyObject. simpl truthy. cbv iota.
  unfold get. rewrite Ht, Hx, Hy, Hc.
  replace (isString (VStr Relay.s_pulse) Relay.s_pulse) with true by reflexivity.
  reflexivity.
Qed.

(** What it does with any other frame. *)
Lemma client_ignores (j : json) (st : Client.State) :
  ~ Relay.pulse_value (reify j) -> Client.message_try (Doc j) st = Ok st.
Proof.
  intros Hn. unfold Client.message_try, Client.message_parsed.
  simpl JSON_parse. cbv zeta.
  destruct (checked (reify j)) eqn:Hc.
  - exfalso. now apply Hn, checked_iff.
  - unfold checked in Hc. cbv zeta in Hc. rewrite Hc. reflexivity.
Qed.

(** C10. For every string [color]: [hexToRgb] returns normally, each
    channel is an integer of [0, 255], and the triple is (0, 0, 0) when
    [parseInt] finds no digit (NaN); [spawnPulse] returns normally; and the
    ['message'] listener, given a frame of the schema that carries [color],
    spawns the pulse without reaching its [catch] block. *)
Theorem hexToRgb_total (color : jsstring) :
  exists rgb,
    Client.hexToRgb (VStr color) = Ok rgb
    /\ (0 <= Color.r rgb <= 255 /\ 0 <= Color.g rgb <= 255
        /\ 0 <= Color.b rgb <= 255)%Z
    /\ (Color.parseInt16 (replace_first Color.hash color) = S754_nan ->
        rgb = {| Color.r := 0; Color.g := 0; Color.b := 0 |})
    /\ (forall normX normY st,
          Client.spawnPulse normX normY (VStr color) st
          = Ok (Client.set_pulses
                  (Client.pulses st ++ [Client.newPulse normX normY rgb]) st))
    /\ (forall j props x y st,
          reify j = VObj props ->
          lookup Relay.k_type props = Some (VStr Relay.s_pulse) ->
          lookup Relay.k_xNorm props = Some (VNum x) ->
          lookup Relay.k_yNorm props = Some (VNum y) ->
          lookup Relay.k_color props = Some (VStr color) ->
          exists p,
            Client.rgb p = rgb
            /\ Client.pulses (Client.on_message (Doc j) st)
               = Client.pulses st ++ [p]
            /\ Client.console_errors (Client.on_message (Doc j) st)
               = Client.console_errors st).
Proof.
  exists (Color.hexToRgb_str color).
  split; [reflexivity|].
  split; [apply hexToRgb_str_range|].
  split; [apply hexToRgb_str_nan|].
  split; [reflexivity|].
  intros j props x y st Hv Ht Hx Hy Hc.
  unfold Client.on_message.
  rewrite (client_accepts j st Hv Ht Hx Hy Hc).
  eexists. split; [|split; reflexivity]. reflexivity.
Qed.

Lemma hexToRgb_total_witness :
  exists rgb,
    Client.hexToRgb (VStr (lit "red")) = Ok rgb
    /\ rgb = {| Color.r := 0; Color.g := 0; Color.b := 0 |}.
Proof.
  destruct (hexToRgb_total (lit "red")) as (rgb & H & _ & Hnan & _).
  exists rgb. split; [exact H|].
  apply Hnan. vm_compute. reflexivity.
Defined.




(** ** The input layer of the client *)

(** The frame [sendPulse] writes. *)
Lemma stringify_pulse_message (normX normY : number) (c : jsstring) :
  JSON_stringify (Client.pulse_message normX normY (VStr c))
  = Some (Relay.pulse_frame (Relay.written normX) (Relay.written normY) c).
Proof. apply stringify_pulse. Qed.

(** [send] appends one frame to the outbox of the socket and leaves its
    state alone. *)
Lemma socket_send_nth (i : nat) (frame : json) (ss : list Client.Socket)
  (s : Client.Socket) :
  nth_error ss i = Some s ->
  nth_error (Client.socket_send i frame ss) i
  = Some {| Client.readyState := Client.readyState s;
            Client.outbox := Client.outbox s ++ [frame];
            Client.listening := Client.listening s |}.
Proof.
  revert i. induction ss as [|s0 ss IH]; intros [|i]; simpl; try discriminate.
  - now intros [= ->].
  - apply IH.
Qed.

(** [sendPulse] with the socket open: the pulse is spawned and one frame
    is handed to the socket. *)
Lemma sendPulse_open (normX normY : number) (c : jsstring) (st : Client.State)
  (i : nat) :
  Client.socket st = Some i ->
  Client.socketIsOpen st = true ->
  Client.sendPulse normX normY (VStr c) st
  = Ok (Client.set_network (Some i)
          (Client.socket_send i
             (Relay.pulse_frame (Relay.written normX) (Relay.written normY) c)
             (Client.sockets st))
          (Client.timers st)
          (Client.set_pulses
             (Client.pulses st
              ++ [Client.newPulse normX normY (Color.hexToRgb_str c)]) st)).
Proof.
  intros Hs Ho. unfold Client.sendPulse, Client.spawnPulse. simpl Client.hexToRgb.
  cbv iota.
  replace (Client.socketIsOpen (Client.set_pulses _ st)) with true
    by (symmetry; exact Ho).
  rewrite stringify_pulse_message. cbn [Client.socket Client.set_pulses].
  rewrite Hs. reflexivity.
Qed.

(** [sendPulse] with no socket yet, or a socket that is not open: the
    pulse is spawned and nothing else happens. *)
Lemma sendPulse_closed (normX normY : number) (c : jsstring) (st : Client.State) :
  Client.socketIsOpen st = false ->
  Client.sendPulse normX normY (VStr c) st
  = Ok (Client.set_pulses
          (Client.pulses st
           ++ [Client.newPulse normX normY (Color.hexToRgb_str c)]) st).
Proof.
  intros Ho. unfold Client.sendPulse, Client.spawnPulse. simpl Client.hexToRgb.
  cbv iota.
  replace (Client.socketIsOpen (Client.set_pulses _ st)) with false
    by (symmetry; exact Ho).
  reflexivity.
Qed.

Lemma handlePointerDown_outside (event : PointerEvent.t) (st : Client.State) :
  let p := Client.getPointerPosition event st in
  Client.isInsideColorPicker (Client.x p) (Client.y p) st = false ->
  Client.handlePointerDown event st
  = Client.sendPulse (Client.pos_normX p) (Client.pos_normY p)
      (VStr (Picker.input_value (Client.colorPicker st))) st.
Proof.
  intros p H. unfold Client.handlePointerDown. fold p. rewrite H. reflexivity.
Qed.

(** C8. A pointer-down or a touch-start outside the colour picker spawns,
    at once and whatever the state of the connection, one pulse at the
    normalized tap coordinates with the colour the picker holds. Exactly
    one pulse-event frame is handed to the socket when the socket is open;
    when it is not, nothing but the pulse list changes: no frame, no timer,
    nothing kept for later. *)
Theorem tap_spawns_and_sends (st : Client.State) (clientX clientY : number)
  (id : N) (others : list Touch.t) :
  let p := Client.position clientX clientY st in
  let color := Picker.input_value (Client.colorPicker st) in
  let spawned :=
    Client.set_pulses
      (Client.pulses st
       ++ [Client.newPulse (Client.pos_normX p) (Client.pos_normY p)
                           (Color.hexToRgb_str color)]) st in
  Client.isInsideColorPicker (Client.x p) (Client.y p) st = false ->
  exists st',
    Client.handlePointerDown
      {| PointerEvent.clientX := clientX; PointerEvent.clientY := clientY;
         PointerEvent.pointerId := id |} st = Ok st'
    /\ Client.handleTouchStart
         ({| Touch.identifier := id; Touch.clientX := clientX;
             Touch.clientY := clientY |} :: others) st = Ok st'
    /\ Client.pulses st' = Client.pulses spawned
    /\ Client.timers st' = Client.timers st
    /\ (Client.socketIsOpen st = false -> st' = spawned)
    /\ (Client.socketIsOpen st = true ->
        exists i,
          Client.socket st = Some i
          /\ Client.sockets st'
             = Client.socket_send i
                 (Relay.pulse_frame (Relay.written (Client.pos_normX p))
                                    (Relay.written (Client.pos_normY p)) color)
                 (Client.sockets st)).
Proof.
  intros p color spawned Hout.
  unfold Client.handlePointerDown, Client.handleTouchStart,
    Client.getPointerPosition, Client.getTouchPosition.
  cbn [PointerEvent.clientX PointerEvent.clientY PointerEvent.pointerId
       Touch.clientX Touch.clientY Touch.identifier].
  fold p. rewrite Hout. fold color.
  destruct (Client.socketIsOpen st) eqn:Ho.
  - assert (Hi : exists i, Client.socket st = Some i).
    { unfold Client.socketIsOpen in Ho.
      destruct (Client.socket st) as [i|]; [now exists i|discriminate]. }
    destruct Hi as [i Hi].
    rewrite (sendPulse_open _ _ _ st Hi Ho).
    eexists. split; [reflexivity|]. split; [reflexivity|].
    split; [reflexivity|]. split; [reflexivity|].
    split; [discriminate|]. intros _. exists i. split; [exact Hi|reflexivity].
  - rewrite (sendPulse_closed _ _ _ st Ho).
    eexists. split; [reflexivity|]. split; [reflexivity|].
    split; [reflexivity|]. split; [reflexivity|].
    split; [reflexivity|discriminate].
Qed.

Lemma tap_spawns_and_sends_witness :
  let st := Client.connectWebSocket
              (Client.loaded (lit "#3399ff")
                 {| Client.left := Num.Fin 0; Client.top := Num.Fin 0;
                    Client.width := Num.Fin 300; Client.height := Num.Fin 150 |}
                 (Num.Fin 1) (Num.Fin 0)) in
  exists st',
    Client.handlePointerDown
      {| PointerEvent.clientX := Num.Fin 100; PointerEvent.clientY := Num.Fin 100;
         PointerEvent.pointerId := 1 |} st = Ok st'
    /\ List.length (Client.pulses st') = 1%nat
    /\ Client.sockets st' = Client.sockets st
    /\ Client.timers st' = [].
Proof.
  intros st.
  destruct (@tap_spawns_and_sends st (Num.Fin 100) (Num.Fin 100) 1%N [])
    as (st' & Hp & _ & Hpulses & Htimers & Hclosed & _).
  - unfold Client.isInsideColorPicker, Client.position.
    cbn [Client.x Client.y Client.colorPicker Client.connectWebSocket
         Client.set_network Client.loaded st Picker.x Picker.y Picker.radius
         Client.orZero Client.rect Client.left Client.top].
    autorewrite with num_fin. apply hypot_outside; lra.
  - exists st'. split; [exact Hp|].
    rewrite (Hclosed eq_refl). repeat split; reflexivity.
Defined.

(** C3 (evaluation at the failing input). The page lays the canvas out
    100.4 CSS pixels wide at device pixel ratio 1, so [resizeCanvas] gives
    the backing store a width of [Math.round(100.4) = 100]. A pointer-down
    at [clientX = 100.3], inside the canvas and outside the colour picker,
    spawns a pulse whose [normX] is [100.3 / 100 = 1.003]: the local path
    hands the coordinate to [spawnPulse] without clamping it. *)
Theorem local_tap_not_clamped :
  let page := {| Client.left := Num.Fin 0; Client.top := Num.Fin 0;
                 Client.width := Num.Fin 100.4; Client.height := Num.Fin 600 |} in
  let st := Client.init (lit "#3399ff") page (Num.Fin 1) (Num.Fin 0) in
  let event := {| PointerEvent.clientX := Num.Fin 100.3;
                  PointerEvent.clientY := Num.Fin 50;
                  PointerEvent.pointerId := 1 |} in
  Client.canvas_width st = 100%N
  /\ exists st' p v,
       Client.handlePointerDown event st = Ok st'
       /\ Client.pulses st' = [p]
       /\ Client.normX p = Num.Fin v
       /\ v = 1.003%R
       /\ ~ Num.within 0 1 (Client.normX p).
Proof.
  intros page st event.
  set (st0 := Client.loaded (lit "#3399ff") page (Num.Fin 1) (Num.Fin 0)).
  destruct (@resizeCanvas_dimensions st0 100.4%R 600%R 100%Z 600%Z)
    as (Hcw & Hch & Hdr & Hw & Hh & Hrect & Hps & Hsock & Hsocks);
    try reflexivity; try lra.
  set (st1 := Client.resizeCanvas st0) in *.
  assert (Hpx : Picker.x (Client.colorPicker st1) = Some (Num.Fin 44)).
  { unfold st1, Client.resizeCanvas, Client.positionColorPicker.
    cbn [Client.colorPicker Client.set_canvas Client.loaded st0 Picker.x Picker.y
         Picker.radius Picker.margin Client.set_colorPicker Client.rect
         Client.width Client.height page Client.cssWidth Client.cssHeight].
    autorewrite with num_fin. do 2 f_equal. solve_minmax. }
  assert (Hpy : Picker.y (Client.colorPicker st1) = Some (Num.Fin 556)).
  { unfold st1, Client.resizeCanvas, Client.positionColorPicker.
    cbn [Client.colorPicker Client.set_canvas Client.loaded st0 Picker.x Picker.y
         Picker.radius Picker.margin Client.set_colorPicker Client.rect
         Client.width Client.height page Client.cssWidth Client.cssHeight].
    autorewrite with num_fin. do 2 f_equal. solve_minmax. }
  assert (Hpr : Picker.radius (Client.colorPicker st1) = Num.Fin 20) by reflexivity.
  assert (Hst : st = Client.connectWebSocket st1) by reflexivity.
  clearbody st1 st. subst st.
  split; [exact Hcw|].
  assert (Hrect' : Client.rect (Client.connectWebSocket st1) = page)
    by (exact Hrect).
  assert (Hout : let p := Client.getPointerPosition event (Client.connectWebSocket st1) in
                 Client.isInsideColorPicker (Client.x p) (Client.y p)
                   (Client.connectWebSocket st1) = false).
  { unfold Client.isInsideColorPicker, Client.getPointerPosition, Client.position.
    cbn [Client.x Client.y Client.colorPicker Client.connectWebSocket
         Client.set_network].
    rewrite Hrect', Hpx, Hpy, Hpr.
    cbn [Client.left Client.top page PointerEvent.clientX PointerEvent.clientY
         event Client.orZero].
    autorewrite with num_fin. apply hypot_outside; lra. }
  rewrite (handlePointerDown_outside _ _ Hout).
  rewrite sendPulse_closed.
  2:{ unfold Client.socketIsOpen. cbn [Client.socket Client.sockets Client.connectWebSocket Client.set_network].
      rewrite Hsocks. reflexivity. }
  eexists. eexists.
  exists ((100.3 - 0) * 1 / IZR 100)%R.
  split; [reflexivity|].
  cbn [Client.pulses Client.set_pulses Client.connectWebSocket Client.set_network].
  rewrite Hps. cbn [Client.pulses st0 Client.loaded app].
  split; [reflexivity|].
  assert (Hn : Client.normX
    (Client.newPulse
       (Client.pos_normX
          (Client.getPointerPosition event (Client.connectWebSocket st1)))
       (Client.pos_normY
          (Client.getPointerPosition event (Client.connectWebSocket st1)))
       (Color.hexToRgb_str
          (Picker.input_value
             (Client.colorPicker (Client.connectWebSocket st1)))))
     = Num.Fin ((100.3 - 0) * 1 / IZR 100)%R).
  { cbn [Client.normX Client.newPulse Client.pos_normX Client.getPointerPosition
         Client.position].
    rewrite Hrect'.
    cbn [Client.deviceRatio Client.canvas_width Client.connectWebSocket
         Client.set_network Client.left page PointerEvent.clientX event].
    rewrite Hdr, Hcw. unfold Num.ofN. autorewrite with num_fin.
    apply div_Fin. change (Z.of_N (Z.to_N 100)) with 100%Z. lra. }
  rewrite Hn. split; [reflexivity|]. simpl. repeat split; lra.
Qed.

(** ** The animation loop *)

Lemma nth_error_middle (pre suf : list Client.Pulse) (p : Client.Pulse) :
  nth_error (pre ++ p :: suf) (List.length pre) = Some p.
Proof.
  induction pre as [|q pre IH]; simpl; [reflexivity|exact IH].
Qed.

Lemma splice1_middle (pre suf : list Client.Pulse) (p : Client.Pulse) :
  Client.splice1 (List.length pre) (pre ++ p :: suf) = pre ++ suf.
Proof.
  induction pre as [|q pre IH]; simpl; [reflexivity|now rewrite IH].
Qed.

Lemma store_middle (pre suf : list Client.Pulse) (p p' : Client.Pulse) :
  Client.store (List.length pre) p' (pre ++ p :: suf) = pre ++ p' :: suf.
Proof.
  induction pre as [|q pre IH]; simpl; [reflexivity|now rewrite IH].
Qed.

Lemma survivors_app (d : number) (ps qs : list Client.Pulse) :
  Client.survivors d (ps ++ qs) = Client.survivors d ps ++ Client.survivors d qs.
Proof.
  unfold Client.survivors. now rewrite map_app, filter_app.
Qed.

Lemma survivors_single (d : number) (p : Client.Pulse) :
  Client.survivors d [p]
  = if Client.expired (Client.advance d p) then [] else [Client.advance d p].
Proof.
  unfold Client.survivors. cbn [List.map List.filter].
  destruct (Client.expired (Client.advance d p)); reflexivity.
Qed.

(** The backward loop with [splice] keeps, in order, the pulses that have
    not expired, each advanced once, and draws them from the last to the
    first. *)
Lemma animate_loop_spec (d cw ch : number) (pre suf : list Client.Pulse)
  (draws : list Client.Draw) :
  Client.animate_loop d cw ch (List.length pre) (pre ++ suf, draws)
  = (Client.survivors d pre ++ suf,
     draws ++ List.map (Client.draw_of cw ch) (List.rev (Client.survivors d pre))).
Proof.
  revert suf draws. induction pre as [|p pre IH] using rev_ind; intros suf draws.
  - simpl. now rewrite app_nil_r.
  - rewrite length_app, Nat.add_comm. cbn [List.length Nat.add Client.animate_loop].
    rewrite <- app_assoc. cbn [app].
    unfold Client.animate_body. rewrite nth_error_middle.
    rewrite survivors_app, survivors_single.
    fold (Client.expired (Client.advance d p)).
    destruct (Client.expired (Client.advance d p)) eqn:E.
    + rewrite splice1_middle, IH. now rewrite !app_nil_r.
    + rewrite store_middle, IH. rewrite <- app_assoc. cbn [app].
      rewrite rev_app_distr. cbn [List.rev app List.map].
      rewrite <- app_assoc. reflexivity.
Qed.

(** One frame. *)
Lemma animate_spec (now : number) (st : Client.State) :
  let d := Client.deltaSec_of now (Client.lastTime st) in
  Client.pulses (fst (Client.animate now st)) = Client.survivors d (Client.pulses st)
  /\ snd (Client.animate now st)
     = List.map (Client.draw_of (Client.cssWidth st) (Client.cssHeight st))
                (List.rev (Client.survivors d (Client.pulses st)))
  /\ Client.lastTime (fst (Client.animate now st)) = now.
Proof.
  intros d. unfold Client.animate. fold d.
  cbn [Client.pulses Client.set_lastTime Client.cssWidth Client.cssHeight].
  pose proof (animate_loop_spec d (Client.cssWidth st) (Client.cssHeight st)
                (Client.pulses st) [] []) as H.
  rewrite !app_nil_r in H. rewrite H. cbn. repeat split; reflexivity.
Qed.

Lemma lifeT_Fin (a : R) :
  Client.lifeT_of (Num.Fin a) = Num.Fin (Rmin 1 (a / 1.4)).
Proof.
  unfold Client.lifeT_of, Client.PULSE_LIFETIME.
  rewrite div_Fin by lra. apply min_Fin.
Qed.

Lemma opacity_Fin (a : R) :
  Client.opacity (Num.Fin a) = Num.Fin (0.22 * sin (PI * Rmin 1 (a / 1.4))).
Proof.
  unfold Client.opacity. rewrite lifeT_Fin. reflexivity.
Qed.

(** A pulse has expired exactly when its age has reached the lifetime. *)
Lemma expired_Fin (p : Client.Pulse) (a : R) :
  Client.age p = Num.Fin a ->
  (Client.expired p = true <-> (1.4 <= a)%R).
Proof.
  intros Ha. unfold Client.expired. rewrite Ha, lifeT_Fin, ge_Fin.
  split; intros H.
  - destruct (Rle_dec 1 (a / 1.4)) as [Hle|Hgt].
    + lra.
    + rewrite Rmin_right in H by lra. lra.
  - rewrite Rmin_left by lra. lra.
Qed.

(** The envelope between birth and the end of the lifetime. *)
Lemma envelope_bounds (a : R) :
  (0 <= a)%R ->
  (0 <= 0.22 * sin (PI * Rmin 1 (a / 1.4)) <= Rabs (a - 1.4))%R.
Proof.
  intros Ha. pose proof PI_RGT_0 as Hpi. pose proof PI_4 as Hpi4.
  pose proof (Rabs_pos (a - 1.4)) as Habs.
  destruct (Rle_dec 1.4 a) as [Hge|Hlt].
  - rewrite Rmin_left by lra. rewrite Rmult_1_r, sin_PI. lra.
  - rewrite Rmin_right by lra.
    set (u := (PI * (1 - a / 1.4))%R).
    replace (PI * (a / 1.4))%R with (PI - u)%R by (unfold u; lra).
    rewrite sin_PI_x.
    assert (Hu : (0 < u)%R) by (unfold u; nra).
    assert (Hu' : (u <= PI)%R) by (unfold u; nra).
    pose proof (sin_lt_x u Hu) as Hs.
    pose proof (sin_ge_0 u (Rlt_le _ _ Hu) Hu') as Hs0.
    assert (Hu4 : (u <= 4 * (1 - a / 1.4))%R) by (unfold u; nra).
    rewrite Rabs_left by lra. lra.
Qed.



(** The elapsed time of a frame, for finite time stamps. *)
Lemma deltaSec_Fin (now last : R) :
  Client.deltaSec_of (Num.Fin now) (Num.Fin last)
  = Num.Fin (Rmin ((now - last) / 1000) 0.05).
Proof.
  unfold Client.deltaSec_of. rewrite sub_Fin, div_Fin by lra. apply min_Fin.
Qed.


Lemma survivors_from (d : number) (ps : list Client.Pulse) (p : Client.Pulse) :
  In p (Client.survivors d ps) ->
  exists p0, In p0 ps /\ p = Client.advance d p0.
Proof.
  unfold Client.survivors. rewrite filter_In, in_map_iff.
  intros [(p0 & <- & Hin) _]. now exists p0.
Qed.





(** ** Reconnection *)

Lemma set_readyState_nth (i : nat) (rs : ReadyState) (ss : list Client.Socket)
  (s : Client.Socket) :
  nth_error ss i = Some s ->
  nth_error (Client.set_readyState i rs ss) i
  = Some {| Client.readyState := rs; Client.outbox := Client.outbox s;
            Client.listening := Client.listening s |}.
Proof.
  revert i. induction ss as [|s0 ss IH]; intros [|i]; simpl; try discriminate.
  - now intros [= ->].
  - apply IH.
Qed.

Lemma set_readyState_length (i : nat) (rs : ReadyState) (ss : list Client.Socket) :
  List.length (Client.set_readyState i rs ss) = List.length ss.
Proof.
  revert i. induction ss as [|s0 ss IH]; intros [|i]; simpl; auto.
Qed.

(** A close reported on a socket that carries the listeners sets one
    timer, whatever the code and the reason. *)
Lemma close_sets_retry (st : Client.State) (i : nat) (s : Client.Socket)
  (code : N) (reason : jsstring) (wasClean : bool) :
  nth_error (Client.sockets st) i = Some s ->
  Client.listening s = true ->
  Client.dispatch i (Client.ev_close code reason wasClean) st
  = Client.set_network (Client.socket st)
      (Client.set_readyState i CLOSED (Client.sockets st))
      (Client.timers st ++ [Client.retry]) st.
Proof.
  intros Hn Hl. unfold Client.dispatch.
  cbn [Client.sockets Client.set_network].
  rewrite (set_readyState_nth _ CLOSED _ Hn). cbn [Client.listening].
  rewrite Hl. reflexivity.
Qed.

(** One loss of the connection: the close, then the timer. *)
Lemma lose_once (st : Client.State) (i : nat)
  (code : N) (reason : jsstring) (wasClean : bool) :
  Client.attached st -> Client.socket st = Some i ->
  let st1 := Client.dispatch i (Client.ev_close code reason wasClean) st in
  Client.timers st1 = [Client.retry]
  /\ Client.attached (Client.fire_timer st1)
  /\ Client.socket (Client.fire_timer st1) = Some (List.length (Client.sockets st))
  /\ List.length (Client.sockets (Client.fire_timer st1))
     = S (List.length (Client.sockets st)).
Proof.
  intros (Ht & i' & s & Hs & Hn & Hl) Hi st1.
  rewrite Hs in Hi. injection Hi as ->.
  unfold st1. rewrite (close_sets_retry st _ code reason wasClean Hn Hl).
  rewrite Ht. cbn [app Client.timers Client.set_network].
  split; [reflexivity|].
  unfold Client.fire_timer.
  cbn [Client.timers Client.set_network Client.retry Client.callback
       Client.run_callback Client.socket Client.sockets].
  unfold Client.connectWebSocket.
  cbn [Client.timers Client.set_network Client.socket Client.sockets].
  rewrite set_readyState_length.
  split; [|split].
  - split; [reflexivity|].
    cbn [Client.timers Client.set_network Client.socket Client.sockets].
    eexists _, _. split; [reflexivity|]. split.
    + rewrite <- (set_readyState_length i CLOSED (Client.sockets st)).
      rewrite nth_error_app2 by apply Nat.le_refl.
      rewrite Nat.sub_diag. reflexivity.
    + reflexivity.
  - reflexivity.
  - rewrite length_app, set_readyState_length. simpl. lia.
Qed.

Lemma lose_attached (closes : list (N * jsstring * bool)) (st : Client.State) :
  Client.attached st ->
  Client.attached (Client.lose closes st)
  /\ List.length (Client.sockets (Client.lose closes st))
     = (List.length (Client.sockets st) + List.length closes)%nat.
Proof.
  revert st. induction closes as [|[[code reason] wasClean] closes IH];
    intros st Ha; cbn [Client.lose List.length].
  - split; [exact Ha|lia].
  - pose proof Ha as (_ & i & s & Hs & _). rewrite Hs.
    destruct (@lose_once st i code reason wasClean Ha Hs) as (_ & Ha' & _ & Hlen).
    destruct (IH _ Ha') as [Hatt Hl]. split; [exact Hatt|].
    rewrite Hl, Hlen. lia.
Qed.

(** C9. After any number of earlier losses, each with its own close code
    and reason, one more close of the current socket sets exactly one
    timer, of 500 milliseconds, to call [connectWebSocket]; when it fires,
    a fresh socket with the same listeners becomes the current one. The
    delay does not depend on the history and no count stops the cycle. *)
Theorem reconnect_forever (st : Client.State)
  (closes : list (N * jsstring * bool))
  (code : N) (reason : jsstring) (wasClean : bool) :
  Client.attached st ->
  let st' := Client.lose closes st in
  exists i,
    Client.socket st' = Some i
    /\ let st1 := Client.dispatch i (Client.ev_close code reason wasClean) st' in
       Client.timers st1
       = [{| Client.delay := 500; Client.callback := Client.connectWebSocket_cb |}]
       /\ Client.attached (Client.fire_timer st1)
       /\ Client.socket (Client.fire_timer st1)
          = Some (List.length (Client.sockets st) + List.length closes)%nat
       /\ List.length (Client.sockets (Client.fire_timer st1))
          = S (List.length (Client.sockets st) + List.length closes).
Proof.
  intros Ha st'.
  destruct (lose_attached closes Ha) as [Ha' Hlen]. fold st' in Ha', Hlen.
  pose proof Ha' as (_ & i & s & Hs & _).
  exists i. split; [exact Hs|].
  destruct (@lose_once st' i code reason wasClean Ha' Hs) as (Ht & Hatt & Hsock & Hl).
  rewrite Hlen in Hsock, Hl.
  split; [exact Ht|]. split; [exact Hatt|]. split; [exact Hsock|exact Hl].
Qed.

Lemma reconnect_forever_witness :
  let st := Client.connectWebSocket
              (Client.loaded (lit "#ffffff")
                 {| Client.left := Num.Fin 0; Client.top := Num.Fin 0;
                    Client.width := Num.Fin 300; Client.height := Num.Fin 150 |}
                 (Num.Fin 1) (Num.Fin 0)) in
  let st' := Client.lose [(1006%N, lit "", false); (1001%N, lit "bye", true)] st in
  exists i,
    Client.socket st' = Some i
    /\ Client.timers (Client.dispatch i (Client.ev_close 1006 (lit "") false) st')
       = [Client.retry].
Proof.
  intros st st'.
  assert (Ha : Client.attached st).
  { split; [reflexivity|]. eexists _, _. repeat split; reflexivity. }
  destruct (@reconnect_forever st
              [(1006%N, lit "", false); (1001%N, lit "bye", true)]
              1006%N (lit "") false Ha) as (i & Hs & Ht & _).
  exists i. split; [exact Hs|exact Ht].
Defined.

(* ================================================================== *)
(** * Further properties of the code *)

(** ** The relay over several frames *)

Lemma on_message_forwarded (data : text) (clients : list Relay.Client) :
  Relay.on_message data clients
  = match Traffic.forwarded data with
    | Some frame => Relay.broadcast frame clients
    | None => clients
    end.
Proof.
  unfold Relay.on_message, Relay.message_try, Traffic.forwarded.
  destruct (JSON_parse data) as [parsed|e]; [|reflexivity]. cbv zeta.
  unfold checked. cbv zeta.
  destruct (isString (get (orEmptyObject parsed) Relay.k_type) Relay.s_pulse
            && type_eqb (typeof (get (orEmptyObject parsed) Relay.k_xNorm)) TNumber
            && type_eqb (typeof (get (orEmptyObject parsed) Relay.k_yNorm)) TNumber
            && type_eqb (typeof (get (orEmptyObject parsed) Relay.k_color)) TString);
    simpl negb; cbv iota; [|reflexivity].
  destruct (JSON_stringify _); reflexivity.
Qed.

(** What a forwarded frame is made of. *)
Lemma forwarded_shape (data : text) (frame : json) :
  Traffic.forwarded data = Some frame ->
  exists j props x y c,
    data = Doc j /\ reify j = VObj props
    /\ lookup Relay.k_xNorm props = Some (VNum x)
    /\ lookup Relay.k_yNorm props = Some (VNum y)
    /\ lookup Relay.k_color props = Some (VStr c)
    /\ frame = Relay.pulse_frame (Relay.written x) (Relay.written y) c.
Proof.
  unfold Traffic.forwarded, JSON_parse. destruct data as [raw|j];
    [discriminate|]. cbv zeta.
  destruct (checked (reify j)) eqn:Hc; [|discriminate].
  apply checked_true in Hc as (props & x & y & c & Hv & Ht & Hx & Hy & Hcol).
  rewrite Hv. unfold orEmptyObject. simpl truthy. cbv iota.
  unfold get. rewrite Ht, Hx, Hy, Hcol. rewrite stringify_pulse.
  intros [= <-]. exists j, props, x, y, c. repeat split; assumption.
Qed.

Lemma written_cases (n : number) :
  (exists r, Relay.written n = JNum r) \/ Relay.written n = JNull.
Proof. destruct n; simpl; eauto. Qed.

Lemma forwarded_fourFields (data : text) (frame : json) :
  Traffic.forwarded data = Some frame -> Traffic.fourFields frame.
Proof.
  intros H. apply forwarded_shape in H as (j & props & x & y & c & _ & _ & _ & _ & _ & ->).
  exists (Relay.written x), (Relay.written y), c.
  split; [reflexivity|]. split; apply written_cases.
Qed.

Lemma forwardedAll_fourFields (inbound : list text) :
  Forall Traffic.fourFields (Traffic.forwardedAll inbound).
Proof.
  induction inbound as [|data rest IH]; simpl; [constructor|].
  destruct (Traffic.forwarded data) eqn:H; [|exact IH].
  constructor; [now apply (forwarded_fourFields data)|exact IH].
Qed.

(** The log of a connection once the frames [frames] were broadcast. *)
Lemma broadcast_all (frames : list json) (clients : list Relay.Client) :
  List.fold_left (fun cs frame => Relay.broadcast frame cs) frames clients
  = List.map (fun c =>
                if isOPEN (Relay.readyState c)
                then {| Relay.readyState := Relay.readyState c;
                        Relay.sent := Relay.sent c ++ frames |}
                else c) clients.
Proof.
  revert clients. induction frames as [|f frames IH]; intros clients; simpl.
  - rewrite <- (map_id clients) at 1. apply map_ext.
    intros [rs log]; simpl. destruct (isOPEN rs); [|reflexivity].
    now rewrite app_nil_r.
  - rewrite IH. unfold Relay.broadcast. rewrite map_map. apply map_ext.
    intros [rs log]; simpl. destruct (isOPEN rs) eqn:E; simpl; rewrite E.
    + unfold Relay.send. simpl. now rewrite <- app_assoc.
    + reflexivity.
Qed.

Lemma relay_fold (inbound : list text) (clients : list Relay.Client) :
  Traffic.relay inbound clients
  = List.fold_left (fun cs frame => Relay.broadcast frame cs)
      (Traffic.forwardedAll inbound) clients.
Proof.
  revert clients. induction inbound as [|data rest IH]; intros clients; simpl.
  - reflexivity.
  - rewrite IH, on_message_forwarded.
    destruct (Traffic.forwarded data); reflexivity.
Qed.

(** X1. Whatever frames arrive, in whatever number: each connection that
    is open has, appended to its log, the frames forwarded for the valid
    ones, in their order of arrival, and each other connection is left as
    it was; the set of connections and their states do not change. *)
Theorem relay_arrival_order (inbound : list text) (clients : list Relay.Client) :
  Traffic.relay inbound clients
  = List.map (fun c =>
                if isOPEN (Relay.readyState c)
                then {| Relay.readyState := Relay.readyState c;
                        Relay.sent := Relay.sent c ++ Traffic.forwardedAll inbound |}
                else c) clients.
Proof. rewrite relay_fold. apply broadcast_all. Qed.

(** X2. The relay never puts on a connection anything but a frame of the
    four members [type], [xNorm], [yNorm], [color]: if the logs hold only
    such frames, they still do after any sequence of inbound frames,
    whatever members those carried. *)
Theorem relay_sends_only_pulse_frames (inbound : list text)
  (clients : list Relay.Client) :
  (forall c, In c clients -> Forall Traffic.fourFields (Relay.sent c)) ->
  forall c, In c (Traffic.relay inbound clients) ->
            Forall Traffic.fourFields (Relay.sent c).
Proof.
  intros Hinit c Hin. rewrite relay_fold, broadcast_all in Hin.
  apply in_map_iff in Hin as (c0 & <- & Hin0).
  destruct (isOPEN (Relay.readyState c0)); [|now apply Hinit].
  simpl. apply Forall_app. split; [now apply Hinit|apply forwardedAll_fourFields].
Qed.

Lemma relay_sends_only_pulse_frames_witness :
  let extra :=
    Doc (JObj [(lit "id", JNum 7); (Relay.k_color, JStr (lit "red"));
               (Relay.k_type, JStr Relay.s_pulse); (Relay.k_yNorm, JNum 1);
               (Relay.k_xNorm, JNum 0); (lit "admin", JBool true)]) in
  let clients := [{| Relay.readyState := OPEN; Relay.sent := [] |}] in
  forall c, In c (Traffic.relay [extra; Malformed (lit "x")] clients) ->
            Forall Traffic.fourFields (Relay.sent c).
Proof.
  intros extra clients.
  apply (relay_sends_only_pulse_frames [extra; Malformed (lit "x")] clients).
  intros c [<-|[]]. constructor.
Defined.

Lemma parsed_number_literal (j : json) (props : list (jsstring * value))
  (k : jsstring) (x : number) :
  reify j = VObj props -> lookup k props = Some (VNum x) ->
  exists r, x = numberOfLiteral r.
Proof.
  intros Hv Hk. destruct j; simpl in Hv; try discriminate.
  injection Hv as <-.
  apply lookup_members in Hk as [[j' Hj']|Hk]; [|discriminate].
  destruct j'; simpl in Hj'; try discriminate.
  injection Hj' as ->. now eexists.
Qed.

(** A number that was read from a literal and written back is read
    again as the same number. *)
Lemma written_literal (r0 rx : R) :
  Relay.written (numberOfLiteral r0) = JNum rx ->
  numberOfLiteral rx = Num.Fin rx.
Proof.
  unfold numberOfLiteral.
  destruct (Rle_dec overflow r0) as [|H1]; [discriminate|].
  destruct (Rle_dec r0 (- overflow)) as [|H2]; [discriminate|].
  simpl. intros [= <-].
  destruct (Rle_dec overflow r0); [contradiction|].
  destruct (Rle_dec r0 (- overflow)); [contradiction|reflexivity].
Qed.

Lemma reify_pulse_frame (x y : json) (c : jsstring) :
  reify (Relay.pulse_frame x y c)
  = VObj [(Relay.k_type, VStr Relay.s_pulse); (Relay.k_xNorm, reify x);
          (Relay.k_yNorm, reify y); (Relay.k_color, VStr c)].
Proof. reflexivity. Qed.

(** A frame with two finite coordinates is forwarded as it is. *)
Lemma forwarded_pulse_frame (rx ry : R) (c : jsstring) :
  numberOfLiteral rx = Num.Fin rx -> numberOfLiteral ry = Num.Fin ry ->
  Traffic.forwarded (Doc (Relay.pulse_frame (JNum rx) (JNum ry) c))
  = Some (Relay.pulse_frame (JNum rx) (JNum ry) c).
Proof.
  intros Hx Hy. unfold Traffic.forwarded, JSON_parse. cbv zeta.
  rewrite reify_pulse_frame. cbn [reify]. rewrite Hx, Hy. reflexivity.
Qed.

(** A frame with a [null] coordinate is not forwarded. *)
Lemma forwarded_null (x y : json) (c : jsstring) :
  x = JNull \/ y = JNull ->
  Traffic.forwarded (Doc (Relay.pulse_frame x y c)) = None.
Proof.
  intros H. unfold Traffic.forwarded, JSON_parse. cbv zeta.
  rewrite reify_pulse_frame.
  assert (Hc : checked (VObj [(Relay.k_type, VStr Relay.s_pulse);
                              (Relay.k_xNorm, reify x);
                              (Relay.k_yNorm, reify y);
                              (Relay.k_color, VStr c)]) = false).
  { unfold checked, orEmptyObject. simpl truthy. cbv iota zeta.
    destruct H as [-> | ->]; simpl.
    - reflexivity.
    - destruct (typeof (reify x)); reflexivity. }
  now rewrite Hc.
Qed.

(** X3. A frame the relay forwards is in normal form: fed back to the
    relay it is forwarded unchanged, unless one of its coordinates was
    written [null] (a number that is not finite), and then the relay
    drops it. *)
Theorem relay_output_normal_form (data : text) (frame : json) :
  Traffic.forwarded data = Some frame ->
  exists x y c,
    frame = Relay.pulse_frame x y c
    /\ ((x <> JNull /\ y <> JNull /\ Traffic.forwarded (Doc frame) = Some frame)
        \/ ((x = JNull \/ y = JNull) /\ Traffic.forwarded (Doc frame) = None)).
Proof.
  intros H.
  apply forwarded_shape in H
    as (j & props & x & y & c & _ & Hv & Hx & Hy & _ & ->).
  destruct (parsed_number_literal j _ Hv Hx) as [r1 ->].
  destruct (parsed_number_literal j _ Hv Hy) as [r2 ->].
  exists (Relay.written (numberOfLiteral r1)),
         (Relay.written (numberOfLiteral r2)), c.
  split; [reflexivity|].
  destruct (written_cases (numberOfLiteral r1)) as [[rx Hrx]|Hnx];
    [|right; split; [now left|apply forwarded_null; now left]].
  destruct (written_cases (numberOfLiteral r2)) as [[ry Hry]|Hny];
    [|right; split; [now right|apply forwarded_null; now right]].
  left. rewrite Hrx, Hry. split; [discriminate|]. split; [discriminate|].
  apply forwarded_pulse_frame; eapply written_literal; eassumption.
Qed.

Lemma relay_output_normal_form_witness :
  exists x y c,
    Relay.pulse_frame (JNum 0) (JNum 1) (lit "red") = Relay.pulse_frame x y c
    /\ ((x <> JNull /\ y <> JNull
         /\ Traffic.forwarded (Doc (Relay.pulse_frame (JNum 0) (JNum 1) (lit "red")))
            = Some (Relay.pulse_frame (JNum 0) (JNum 1) (lit "red")))
        \/ ((x = JNull \/ y = JNull)
            /\ Traffic.forwarded (Doc (Relay.pulse_frame (JNum 0) (JNum 1) (lit "red")))
               = None)).
Proof.
  apply (@relay_output_normal_form
           (Doc (Relay.pulse_frame (JNum 0) (JNum 1) (lit "red")))).
  apply forwarded_pulse_frame; apply numberOfLiteral_small; lra.
Defined.

(** X4. When [server.js] listens, it is on every interface, on a port
    that was free and is below 65536: the decimal value of [PORT] when
    [PORT] is set and not empty, 3000 otherwise. *)
Theorem listens_where_told (env_PORT : option jsstring) (bound : N -> bool)
  (h : jsstring) (n : N) :
  Relay.server_listen env_PORT bound = Relay.Listening h n ->
  h = lit "0.0.0.0"
  /\ bound n = false
  /\ (n < 65536)%N
  /\ match env_PORT with
     | Some (c :: s) => Relay.decimal 0 (c :: s) = Some n
     | _ => n = 3000%N
     end.
Proof.
  unfold Relay.server_listen.
  destruct (Relay.portNumber (Relay.HTTP_PORT env_PORT)) as [m|] eqn:Hp;
    [|discriminate].
  destruct (N.ltb m 65536) eqn:Hr; [|discriminate].
  destruct (bound m) eqn:Hb; [discriminate|].
  intros [= <- <-]. apply N.ltb_lt in Hr.
  repeat split; try assumption.
  destruct env_PORT as [[|c s]|];
    cbn [Relay.HTTP_PORT Relay.portNumber] in Hp; congruence.
Qed.

Lemma listens_where_told_witness :
  lit "0.0.0.0" = lit "0.0.0.0"
  /\ N.eqb 4000 8080 = false
  /\ (4000 < 65536)%N
  /\ Relay.decimal 0 (lit "4000") = Some 4000%N.
Proof.
  apply (@listens_where_told (Some (lit "4000")) (fun n => N.eqb n 8080)
           (lit "0.0.0.0") 4000%N).
  reflexivity.
Defined.

(** ** The client and the frames it receives *)

(** What the body of the ['message'] listener can come to. *)
Lemma message_try_cases (data : text) (st : Client.State) :
  (exists raw, data = Malformed raw /\ Client.message_try data st = Throw SyntaxError)
  \/ Client.message_try data st = Ok st
  \/ exists p, Client.message_try data st
               = Ok (Client.set_pulses (Client.pulses st ++ [p]) st).
Proof.
  destruct data as [raw|j].
  - left. now exists raw.
  - right. destruct (checked (reify j)) eqn:Hc.
    + right. apply checked_true in Hc as (props & x & y & c & Hv & Ht & Hx & Hy & Hcol).
      eexists. apply (client_accepts j st Hv Ht Hx Hy Hcol).
    + left. apply client_ignores. intros Hp. apply checked_iff in Hp. congruence.
Qed.

(** X5. Whatever arrives on the socket, the ['message'] listener only
    ever appends at most one pulse: it sends nothing, sets no timer, and
    leaves the socket, the picker, the canvas and the clock alone. *)
Theorem listener_only_spawns (data : text) (st : Client.State) :
  let st' := Client.on_message data st in
  (Client.pulses st' = Client.pulses st
   \/ exists p, Client.pulses st' = Client.pulses st ++ [p])
  /\ Client.sockets st' = Client.sockets st
  /\ Client.socket st' = Client.socket st
  /\ Client.timers st' = Client.timers st
  /\ Client.colorPicker st' = Client.colorPicker st
  /\ Client.canvas_width st' = Client.canvas_width st
  /\ Client.canvas_height st' = Client.canvas_height st
  /\ Client.lastTime st' = Client.lastTime st.
Proof.
  intros st'. unfold st', Client.on_message.
  destruct (message_try_cases data st) as [(raw & _ & ->)|[->|[p ->]]].
  - repeat split; try reflexivity. now left.
  - repeat split; try reflexivity. now left.
  - repeat split; try reflexivity. right. now exists p.
Qed.

(** X6. A frame that is not JSON is logged once with [console.error] and
    changes nothing else; a JSON frame that is not a pulse event is passed
    over, without a log: the state is the same. *)
Theorem listener_bad_frames (st : Client.State) :
  (forall raw,
     Client.on_message (Malformed raw) st = Client.console_error st
     /\ Client.console_errors (Client.on_message (Malformed raw) st)
        = S (Client.console_errors st)
     /\ Client.pulses (Client.on_message (Malformed raw) st) = Client.pulses st)
  /\ (forall j, ~ Relay.pulse_value (reify j) ->
                Client.on_message (Doc j) st = st).
Proof.
  split.
  - intros raw. repeat split; reflexivity.
  - intros j Hn. unfold Client.on_message. now rewrite client_ignores.
Qed.

Lemma listener_bad_frames_witness :
  let st := Client.loaded (lit "#ffffff")
              {| Client.left := Num.Fin 0; Client.top := Num.Fin 0;
                 Client.width := Num.Fin 300; Client.height := Num.Fin 150 |}
              (Num.Fin 1) (Num.Fin 0) in
  Client.on_message (Doc (JArr [JStr Relay.s_pulse])) st = st.
Proof.
  intros st. destruct (listener_bad_frames st) as [_ H].
  apply H. intros (props & x & y & c & Hv & _). discriminate Hv.
Defined.

(** On a canvas dimension that is not 0, a coordinate of [0, 1] comes out
    of the listener as it went in. *)
Lemma received_norm_id (x : R) (dim : N) :
  (0 <= x <= 1)%R -> dim <> 0%N ->
  Client.received_norm (Num.Fin x) dim = Num.Fin x.
Proof.
  intros Hx Hd. pose proof (ofN_positive Hd) as Hpos.
  unfold Client.received_norm, Num.ofN.
  rewrite min_Fin, max_Fin, mul_Fin.
  rewrite Rmin_right by lra. rewrite Rmax_right by lra.
  rewrite div_Fin by lra. f_equal. field. lra.
Qed.

(** The frame a tap puts on the wire, as the relay and the peers read
    it. *)
Lemma reify_tap_frame (nx ny : R) (c : jsstring) :
  (0 <= nx <= 1)%R -> (0 <= ny <= 1)%R ->
  reify (Relay.pulse_frame (JNum nx) (JNum ny) c)
  = VObj [(Relay.k_type, VStr Relay.s_pulse); (Relay.k_xNorm, VNum (Num.Fin nx));
          (Relay.k_yNorm, VNum (Num.Fin ny)); (Relay.k_color, VStr c)].
Proof.
  intros Hx Hy. rewrite reify_pulse_frame. cbn [reify].
  rewrite !numberOfLiteral_small by lra. reflexivity.
Qed.

Lemma peer_receives (nx ny : R) (c : jsstring) (peer : Client.State) :
  (0 <= nx <= 1)%R -> (0 <= ny <= 1)%R ->
  Client.canvas_width peer <> 0%N -> Client.canvas_height peer <> 0%N ->
  Client.on_message (Doc (Relay.pulse_frame (JNum nx) (JNum ny) c)) peer
  = Client.set_pulses
      (Client.pulses peer
       ++ [Client.newPulse (Num.Fin nx) (Num.Fin ny) (Color.hexToRgb_str c)])
      peer.
Proof.
  intros Hx Hy Hw Hh. unfold Client.on_message.
  rewrite (@client_accepts _ _ (Num.Fin nx) (Num.Fin ny) c peer
             (reify_tap_frame c Hx Hy)) by reflexivity.
  now rewrite !received_norm_id.
Qed.

(** X7. A pulse travels unchanged from one client to another: when a
    client whose socket is open calls [sendPulse] with coordinates of
    [0, 1], the frame it sends is forwarded by the relay as it is, and a
    peer whose canvas is not empty spawns from it a pulse equal to the one
    the sender spawned for itself: same coordinates, same colour, radius
    and age 0. *)
Theorem pulse_round_trip (sender peer : Client.State) (i : nat)
  (nx ny : R) (c : jsstring) (clients : list Relay.Client) :
  (0 <= nx <= 1)%R -> (0 <= ny <= 1)%R ->
  Client.socket sender = Some i -> Client.socketIsOpen sender = true ->
  Client.canvas_width peer <> 0%N -> Client.canvas_height peer <> 0%N ->
  exists sender' frame pulse,
    Client.sendPulse (Num.Fin nx) (Num.Fin ny) (VStr c) sender = Ok sender'
    /\ Client.pulses sender' = Client.pulses sender ++ [pulse]
    /\ Client.sockets sender' = Client.socket_send i frame (Client.sockets sender)
    /\ Relay.on_message (Doc frame) clients = Relay.broadcast frame clients
    /\ Client.pulses (Client.on_message (Doc frame) peer)
       = Client.pulses peer ++ [pulse].
Proof.
  intros Hx Hy Hs Ho Hw Hh.
  exists (Client.set_network (Some i)
            (Client.socket_send i
               (Relay.pulse_frame (JNum nx) (JNum ny) c) (Client.sockets sender))
            (Client.timers sender)
            (Client.set_pulses
               (Client.pulses sender
                ++ [Client.newPulse (Num.Fin nx) (Num.Fin ny) (Color.hexToRgb_str c)])
               sender)),
         (Relay.pulse_frame (JNum nx) (JNum ny) c),
         (Client.newPulse (Num.Fin nx) (Num.Fin ny) (Color.hexToRgb_str c)).
  split; [apply (sendPulse_open (Num.Fin nx) (Num.Fin ny) c sender Hs Ho)|].
  split; [reflexivity|]. split; [reflexivity|]. split.
  - rewrite on_message_forwarded, forwarded_pulse_frame;
      [reflexivity| |]; apply numberOfLiteral_small; lra.
  - now rewrite peer_receives.
Qed.

Lemma pulse_round_trip_witness :
  let page := {| Client.left := Num.Fin 0; Client.top := Num.Fin 0;
                 Client.width := Num.Fin 300; Client.height := Num.Fin 150 |} in
  let peer := Client.loaded (lit "#ffffff") page (Num.Fin 1) (Num.Fin 0) in
  let sender := Client.dispatch 0 Client.ev_open (Client.connectWebSocket peer) in
  exists sender' frame pulse,
    Client.sendPulse (Num.Fin (1 / 4)) (Num.Fin (3 / 4)) (VStr (lit "#ff8040")) sender
    = Ok sender'
    /\ Client.pulses sender' = Client.pulses sender ++ [pulse]
    /\ Client.sockets sender' = Client.socket_send 0 frame (Client.sockets sender)
    /\ Relay.on_message (Doc frame) [] = Relay.broadcast frame []
    /\ Client.pulses (Client.on_message (Doc frame) peer)
       = Client.pulses peer ++ [pulse].
Proof.
  intros page peer sender.
  apply (@pulse_round_trip sender peer 0%nat (1 / 4)%R (3 / 4)%R (lit "#ff8040") []);
    try lra; try reflexivity; simpl; discriminate.
Defined.

(** X8. The relay sends a frame back to the connection it came from, and
    the client does not tell its own frames from the others: after a tap
    with the socket open, once the echo has arrived, the sender holds the
    pulse twice. *)
Theorem own_pulse_spawned_twice (sender : Client.State) (i k : nat)
  (nx ny : R) (c : jsstring) (clients : list Relay.Client)
  (connection : Relay.Client) :
  (0 <= nx <= 1)%R -> (0 <= ny <= 1)%R ->
  Client.socket sender = Some i -> Client.socketIsOpen sender = true ->
  Client.canvas_width sender <> 0%N -> Client.canvas_height sender <> 0%N ->
  nth_error clients k = Some connection ->
  Relay.readyState connection = OPEN ->
  exists sender' frame pulse,
    Client.sendPulse (Num.Fin nx) (Num.Fin ny) (VStr c) sender = Ok sender'
    /\ Client.sockets sender' = Client.socket_send i frame (Client.sockets sender)
    /\ nth_error (Relay.on_message (Doc frame) clients) k
       = Some {| Relay.readyState := OPEN;
                 Relay.sent := Relay.sent connection ++ [frame] |}
    /\ Client.pulses (Client.on_message (Doc frame) sender')
       = Client.pulses sender ++ [pulse; pulse].
Proof.
  intros Hx Hy Hs Ho Hw Hh Hk Hopen.
  rewrite (sendPulse_open (Num.Fin nx) (Num.Fin ny) c sender Hs Ho).
  eexists _, (Relay.pulse_frame (JNum nx) (JNum ny) c),
          (Client.newPulse (Num.Fin nx) (Num.Fin ny) (Color.hexToRgb_str c)).
  split; [reflexivity|]. split; [reflexivity|]. split.
  - rewrite on_message_forwarded, forwarded_pulse_frame
      by (apply numberOfLiteral_small; lra).
    rewrite (broadcast_nth _ _ _ Hk), Hopen. reflexivity.
  - rewrite peer_receives by assumption.
    cbn [Client.pulses Client.set_pulses Client.set_network].
    rewrite <- app_assoc. reflexivity.
Qed.

Lemma own_pulse_spawned_twice_witness :
  let page := {| Client.left := Num.Fin 0; Client.top := Num.Fin 0;
                 Client.width := Num.Fin 300; Client.height := Num.Fin 150 |} in
  let sender :=
    Client.dispatch 0 Client.ev_open
      (Client.connectWebSocket
         (Client.loaded (lit "#ffffff") page (Num.Fin 1) (Num.Fin 0))) in
  exists sender' frame pulse,
    Client.sendPulse (Num.Fin (1 / 4)) (Num.Fin (3 / 4)) (VStr (lit "#ff8040")) sender
    = Ok sender'
    /\ Client.pulses (Client.on_message (Doc frame) sender') = [pulse; pulse].
Proof.
  intros page sender.
  destruct (@own_pulse_spawned_twice sender 0%nat 0%nat (1 / 4)%R (3 / 4)%R
              (lit "#ff8040")
              [{| Relay.readyState := OPEN; Relay.sent := [] |}]
              {| Relay.readyState := OPEN; Relay.sent := [] |})
    as (sender' & frame & pulse & Hs & _ & _ & Hp);
    try lra; try reflexivity; try (simpl; discriminate).
  exists sender', frame, pulse. split; [exact Hs|exact Hp].
Defined.

(** A quotient by a canvas dimension that is 0 is never finite. *)
Lemma div_zero_not_finite (a : number) (r : R) :
  Num.div a (Num.ofN 0) <> Num.Fin r.
Proof.
  unfold Num.ofN. change (IZR (Z.of_N 0)) with 0%R.
  destruct a as [| |x|]; unfold Num.div, Num.scaleInf; split_reals;
    try discriminate; try lra; try contradiction.
Qed.

Lemma written_not_finite (n : number) :
  (forall r, n <> Num.Fin r) -> Relay.written n = JNull.
Proof. destruct n; intros H; try reflexivity. now destruct (H x). Qed.

(** X9. While the backing store of the canvas has width 0, a tap outside
    the picker is still spawned locally, but its [normX] is not a finite
    number; with the socket open the frame that is sent carries
    ["xNorm": null], and the relay drops that frame: no peer sees the
    tap. *)
Theorem tap_on_empty_canvas_is_local (st : Client.State) (i : nat)
  (event : PointerEvent.t) (clients : list Relay.Client) :
  Client.canvas_width st = 0%N ->
  Client.socket st = Some i -> Client.socketIsOpen st = true ->
  (let p := Client.getPointerPosition event st in
   Client.isInsideColorPicker (Client.x p) (Client.y p) st = false) ->
  exists st' pulse y c,
    Client.handlePointerDown event st = Ok st'
    /\ Client.pulses st' = Client.pulses st ++ [pulse]
    /\ (forall r, Client.normX pulse <> Num.Fin r)
    /\ Client.sockets st'
       = Client.socket_send i (Relay.pulse_frame JNull y c) (Client.sockets st)
    /\ Relay.on_message (Doc (Relay.pulse_frame JNull y c)) clients = clients.
Proof.
  intros Hw Hs Ho Hout.
  rewrite (handlePointerDown_outside event st Hout).
  rewrite (sendPulse_open _ _ _ st Hs Ho).
  assert (Hnf : forall r,
             Client.pos_normX (Client.getPointerPosition event st) <> Num.Fin r).
  { intros r. unfold Client.getPointerPosition, Client.position.
    cbn [Client.pos_normX]. rewrite Hw. apply div_zero_not_finite. }
  rewrite (written_not_finite Hnf).
  eexists _, _, _, _. split; [reflexivity|].
  split; [reflexivity|]. split; [exact Hnf|]. split; [reflexivity|].
  rewrite on_message_forwarded, forwarded_null; [reflexivity|now left].
Qed.

Lemma tap_on_empty_canvas_is_local_witness :
  let page := {| Client.left := Num.Fin 0; Client.top := Num.Fin 0;
                 Client.width := Num.Fin 0; Client.height := Num.Fin 150 |} in
  let st :=
    Client.dispatch 0 Client.ev_open
      (Client.connectWebSocket
         (Client.set_canvas (Num.Fin 0) (Num.Fin 150) (Num.Fin 1) 0 150
            (Client.loaded (lit "#ffffff") page (Num.Fin 1) (Num.Fin 0)))) in
  let event := {| PointerEvent.clientX := Num.Fin 100;
                  PointerEvent.clientY := Num.Fin 100;
                  PointerEvent.pointerId := 1 |} in
  exists st' pulse,
    Client.handlePointerDown event st = Ok st'
    /\ Client.pulses st' = [pulse]
    /\ forall r, Client.normX pulse <> Num.Fin r.
Proof.
  intros page st event.
  destruct (@tap_on_empty_canvas_is_local st 0%nat event [])
    as (st' & pulse & y & c & H & Hp & Hn & _); try reflexivity.
  - unfold Client.isInsideColorPicker, Client.getPointerPosition, Client.position.
    cbn [Client.x Client.y Client.colorPicker Client.connectWebSocket
         Client.set_network Client.set_canvas Client.loaded Client.dispatch
         st event page Picker.x Picker.y Picker.radius nth_error
         Client.sockets Client.socket Client.timers Client.set_readyState
         Client.listening Client.orZero Client.rect Client.left Client.top
         PointerEvent.clientX PointerEvent.clientY app List.length].
    autorewrite with num_fin. apply hypot_outside; lra.
  - exists st', pulse. split; [exact H|]. split; [exact Hp|exact Hn].
Defined.

(** ** The socket through a loss of the connection *)

Lemma dispatch_open (i : nat) (st : Client.State) :
  Client.dispatch i Client.ev_open st
  = Client.set_network (Client.socket st)
      (Client.set_readyState i OPEN (Client.sockets st)) (Client.timers st) st.
Proof.
  unfold Client.dispatch.
  destruct (nth_error _ i) as [s|]; [destruct (Client.listening s)|]; reflexivity.
Qed.

Lemma socketIsOpen_at (st : Client.State) (i : nat) (s : Client.Socket) :
  Client.socket st = Some i -> nth_error (Client.sockets st) i = Some s ->
  Client.socketIsOpen st = isOPEN (Client.readyState s).
Proof. intros Hs Hn. unfold Client.socketIsOpen. now rewrite Hs, Hn. Qed.

Lemma nth_error_last (ss : list Client.Socket) (s : Client.Socket) :
  nth_error (ss ++ [s]) (List.length ss) = Some s.
Proof.
  rewrite nth_error_app2 by apply Nat.le_refl. now rewrite Nat.sub_diag.
Qed.

(** X10. The script sends only between the ['open'] and the ['close'] of
    its current socket. Once the socket has opened, [sendPulse] finds it
    open; after its close it does not, nor after the retry timer has made
    a new socket, until that one opens in turn; the new socket starts with
    nothing to send, and what was handed to the old one stays there. *)
Theorem sends_only_between_open_and_close (st : Client.State) (i : nat)
  (s : Client.Socket) (code : N) (reason : jsstring) (wasClean : bool) :
  Client.timers st = [] ->
  Client.socket st = Some i ->
  nth_error (Client.sockets st) i = Some s ->
  Client.listening s = true ->
  let opened := Client.dispatch i Client.ev_open st in
  let closed := Client.dispatch i (Client.ev_close code reason wasClean) opened in
  let retried := Client.fire_timer closed in
  let fresh := List.length (Client.sockets st) in
  Client.socketIsOpen opened = true
  /\ Client.socketIsOpen closed = false
  /\ Client.socket retried = Some fresh
  /\ Client.socketIsOpen retried = false
  /\ Client.socketIsOpen (Client.dispatch fresh Client.ev_open retried) = true
  /\ nth_error (Client.sockets retried) fresh
     = Some {| Client.readyState := CONNECTING; Client.outbox := [];
               Client.listening := true |}
  /\ nth_error (Client.sockets retried) i
     = Some {| Client.readyState := CLOSED; Client.outbox := Client.outbox s;
               Client.listening := true |}.
Proof.
  intros Ht Hs Hn Hl opened closed retried fresh.
  assert (Hopened : opened
                    = Client.set_network (Some i)
                        (Client.set_readyState i OPEN (Client.sockets st)) [] st).
  { unfold opened. rewrite dispatch_open, Hs, Ht. reflexivity. }
  pose proof (set_readyState_nth i OPEN _ Hn) as Hn1.
  assert (Hclosed : closed
                    = Client.set_network (Some i)
                        (Client.set_readyState i CLOSED
                           (Client.set_readyState i OPEN (Client.sockets st)))
                        [Client.retry] st).
  { unfold closed. rewrite Hopened.
    erewrite close_sets_retry;
      [reflexivity | cbn [Client.sockets Client.set_network]; exact Hn1 | exact Hl]. }
  pose proof (set_readyState_nth i CLOSED _ Hn1) as Hn2.
  cbn [Client.outbox Client.listening] in Hn2. rewrite Hl in Hn2.
  set (ss2 := Client.set_readyState i CLOSED
                (Client.set_readyState i OPEN (Client.sockets st))) in *.
  assert (Hlen : List.length ss2 = fresh).
  { unfold ss2, fresh. now rewrite !set_readyState_length. }
  assert (Hi : (i < List.length ss2)%nat).
  { apply nth_error_Some. rewrite Hn2. discriminate. }
  set (new := {| Client.readyState := CONNECTING; Client.outbox := [];
                 Client.listening := true |}).
  assert (Hretried : retried
                     = Client.set_network (Some fresh) (ss2 ++ [new]) [] st).
  { unfold retried. rewrite Hclosed. unfold Client.fire_timer.
    cbn [Client.timers Client.set_network Client.retry Client.callback
         Client.run_callback].
    unfold Client.connectWebSocket.
    cbn [Client.timers Client.set_network Client.socket Client.sockets].
    fold new. rewrite Hlen. reflexivity. }
  assert (Hfresh : nth_error (ss2 ++ [new]) fresh = Some new).
  { rewrite <- Hlen. apply nth_error_last. }
  split.
  { rewrite Hopened. erewrite socketIsOpen_at;
      [|reflexivity|cbn [Client.sockets Client.set_network]; exact Hn1].
    reflexivity. }
  split.
  { rewrite Hclosed. erewrite socketIsOpen_at;
      [|reflexivity|cbn [Client.sockets Client.set_network]; exact Hn2].
    reflexivity. }
  split; [rewrite Hretried; reflexivity|].
  split.
  { rewrite Hretried. erewrite socketIsOpen_at;
      [|reflexivity|cbn [Client.sockets Client.set_network]; exact Hfresh].
    reflexivity. }
  split.
  { rewrite dispatch_open, Hretried.
    cbn [Client.socket Client.sockets Client.timers Client.set_network].
    erewrite socketIsOpen_at;
      [|reflexivity
       |cbn [Client.sockets Client.set_network];
        apply (set_readyState_nth fresh OPEN _ Hfresh)].
    reflexivity. }
  split.
  { rewrite Hretried. exact Hfresh. }
  rewrite Hretried. cbn [Client.sockets Client.set_network].
  rewrite nth_error_app1 by exact Hi. exact Hn2.
Qed.

Lemma sends_only_between_open_and_close_witness :
  let st := Client.connectWebSocket
              (Client.loaded (lit "#ffffff")
                 {| Client.left := Num.Fin 0; Client.top := Num.Fin 0;
                    Client.width := Num.Fin 300; Client.height := Num.Fin 150 |}
                 (Num.Fin 1) (Num.Fin 0)) in
  let opened := Client.dispatch 0 Client.ev_open st in
  let closed := Client.dispatch 0 (Client.ev_close 1006 (lit "") false) opened in
  Client.socketIsOpen opened = true
  /\ Client.socketIsOpen closed = false
  /\ Client.socketIsOpen (Client.fire_timer closed) = false.
Proof.
  intros st opened closed.
  destruct (@sends_only_between_open_and_close st 0%nat
              {| Client.readyState := CONNECTING; Client.outbox := [];
                 Client.listening := true |} 1006%N (lit "") false)
    as (H1 & H2 & _ & H3 & _); try reflexivity.
  repeat split; assumption.
Defined.

(** ** The colour handle *)

(** Where [positionColorPicker] puts the handle, for finite data: at the
    stored centre, or at the default corner when a coordinate is [null],
    clamped to the surface. *)
Lemma positionColorPicker_eval (st : Client.State) (r m cw ch x0 y0 : R) :
  Picker.radius (Client.colorPicker st) = Num.Fin r ->
  Client.cssWidth st = Num.Fin cw -> Client.cssHeight st = Num.Fin ch ->
  (Picker.x (Client.colorPicker st) = Some (Num.Fin x0)
   /\ Picker.y (Client.colorPicker st) = Some (Num.Fin y0))
  \/ ((Picker.x (Client.colorPicker st) = None
       \/ Picker.y (Client.colorPicker st) = None)
      /\ Picker.margin (Client.colorPicker st) = Num.Fin m
      /\ x0 = (m + r)%R /\ y0 = (ch - (m + r))%R) ->
  Client.positionColorPicker st
  = Client.set_colorPicker
      (Drag.moveTo (Num.Fin (Rmin (Rmax r x0) (Rmax r (cw - r))))
                   (Num.Fin (Rmin (Rmax r y0) (Rmax r (ch - r))))
                   (Client.colorPicker st)) st.
Proof.
  intros Hr Hw Hh Hxy. unfold Client.positionColorPicker, Drag.moveTo.
  rewrite Hr, Hw, Hh.
  destruct Hxy as [[Hx Hy]|(Hnull & Hm & -> & ->)].
  - rewrite Hx, Hy. autorewrite with num_fin; reflexivity.
  - rewrite Hm.
    destruct (Picker.x (Client.colorPicker st)) as [x|],
             (Picker.y (Client.colorPicker st)) as [y|];
      try (destruct Hnull; discriminate);
      autorewrite with num_fin; reflexivity.
Qed.

Lemma clamp_bounds (r x M : R) :
  (r <= M)%R -> (r <= Rmin (Rmax r x) M <= M)%R.
Proof.
  intros H. split.
  - apply Rmin_glb; [apply Rmax_l|exact H].
  - apply Rmin_r.
Qed.

Lemma clamp_fixed (r x M : R) :
  (r <= x <= M)%R -> Rmin (Rmax r x) M = x.
Proof.
  intros H. rewrite Rmax_right by lra. apply Rmin_left. lra.
Qed.

Lemma moveTo_placed (cp : Picker.t) (r x y cw ch : R) :
  Picker.radius cp = Num.Fin r ->
  Drag.placed (Drag.moveTo (Num.Fin (Rmin (Rmax r x) (Rmax r (cw - r))))
                           (Num.Fin (Rmin (Rmax r y) (Rmax r (ch - r)))) cp)
              cw ch.
Proof.
  intros Hr. eexists r, _, _. cbn [Drag.moveTo Picker.radius Picker.x Picker.y].
  split; [exact Hr|]. split; [reflexivity|]. split; [reflexivity|].
  split; apply clamp_bounds; apply Rmax_l.
Qed.

(** X11. [positionColorPicker] keeps the handle on the surface: for a
    finite radius and a finite surface, and a centre that is finite or not
    yet set, the centre ends between the radius and the far edge minus the
    radius, so the whole disc is on a surface at least as wide and high as
    the handle; nothing but the centre changes, and a handle that is
    already there does not move. *)
Theorem handle_stays_on_surface (st : Client.State) (r m cw ch : R) :
  Picker.radius (Client.colorPicker st) = Num.Fin r ->
  Picker.margin (Client.colorPicker st) = Num.Fin m ->
  Client.cssWidth st = Num.Fin cw -> Client.cssHeight st = Num.Fin ch ->
  (Picker.x (Client.colorPicker st) = None
   \/ exists x, Picker.x (Client.colorPicker st) = Some (Num.Fin x)) ->
  (Picker.y (Client.colorPicker st) = None
   \/ exists y, Picker.y (Client.colorPicker st) = Some (Num.Fin y)) ->
  let st' := Client.positionColorPicker st in
  exists x y,
    Client.colorPicker st'
    = Drag.moveTo (Num.Fin x) (Num.Fin y) (Client.colorPicker st)
    /\ st' = Client.set_colorPicker (Client.colorPicker st') st
    /\ (r <= x <= Rmax r (cw - r))%R /\ (r <= y <= Rmax r (ch - r))%R
    /\ ((2 * r <= cw)%R -> (0 <= x - r)%R /\ (x + r <= cw)%R)
    /\ ((2 * r <= ch)%R -> (0 <= y - r)%R /\ (y + r <= ch)%R)
    /\ Client.positionColorPicker st' = st'.
Proof.
  intros Hr Hm Hw Hh Hx Hy st'.
  assert (Hev : exists x0 y0,
            st' = Client.set_colorPicker
                    (Drag.moveTo (Num.Fin (Rmin (Rmax r x0) (Rmax r (cw - r))))
                                 (Num.Fin (Rmin (Rmax r y0) (Rmax r (ch - r))))
                                 (Client.colorPicker st)) st).
  { destruct Hx as [Hx|[x Hx]].
    - exists (m + r)%R, (ch - (m + r))%R.
      apply (@positionColorPicker_eval st r m cw ch);
        [exact Hr|exact Hw|exact Hh|right; auto].
    - destruct Hy as [Hy|[y Hy]].
      + exists (m + r)%R, (ch - (m + r))%R.
        apply (@positionColorPicker_eval st r m cw ch);
          [exact Hr|exact Hw|exact Hh|right; auto].
      + exists x, y.
        apply (@positionColorPicker_eval st r m cw ch);
          [exact Hr|exact Hw|exact Hh|left; auto]. }
  destruct Hev as (x0 & y0 & Hst').
  set (x1 := Rmin (Rmax r x0) (Rmax r (cw - r))) in *.
  set (y1 := Rmin (Rmax r y0) (Rmax r (ch - r))) in *.
  assert (Bx : (r <= x1 <= Rmax r (cw - r))%R)
    by (apply clamp_bounds, Rmax_l).
  assert (By : (r <= y1 <= Rmax r (ch - r))%R)
    by (apply clamp_bounds, Rmax_l).
  exists x1, y1. rewrite Hst'.
  split; [reflexivity|]. split; [reflexivity|].
  split; [exact Bx|]. split; [exact By|].
  split; [intros H2; rewrite Rmax_right in Bx by lra; lra|].
  split; [intros H2; rewrite Rmax_right in By by lra; lra|].
  rewrite (@positionColorPicker_eval _ r m cw ch x1 y1);
    [| exact Hr | exact Hw | exact Hh | left; split; reflexivity].
  cbn [Client.colorPicker Client.set_colorPicker].
  unfold x1 at 1 2, y1 at 1 2. fold x1 y1.
  rewrite (clamp_fixed Bx), (clamp_fixed By). reflexivity.
Qed.

Lemma handle_stays_on_surface_witness :
  let st := Client.set_canvas (Num.Fin 300) (Num.Fin 150) (Num.Fin 1) 300 150
              (Client.loaded (lit "#ffffff")
                 {| Client.left := Num.Fin 0; Client.top := Num.Fin 0;
                    Client.width := Num.Fin 300; Client.height := Num.Fin 150 |}
                 (Num.Fin 1) (Num.Fin 0)) in
  exists x y,
    Picker.x (Client.colorPicker (Client.positionColorPicker st)) = Some (Num.Fin x)
    /\ Picker.y (Client.colorPicker (Client.positionColorPicker st)) = Some (Num.Fin y)
    /\ (0 <= x - 20)%R /\ (x + 20 <= 300)%R
    /\ (0 <= y - 20)%R /\ (y + 20 <= 150)%R.
Proof.
  intros st.
  destruct (@handle_stays_on_surface st 20 24 300 150)
    as (x & y & Hcp & _ & _ & _ & Hx & Hy & _);
    try reflexivity; try (now left).
  exists x, y. rewrite Hcp. cbn [Drag.moveTo Picker.x Picker.y].
  destruct (Hx ltac:(lra)). destruct (Hy ltac:(lra)).
  repeat split; assumption.
Defined.

(** ** Dragging the handle *)

Lemma differs_same (id : N) : Drag.differs (Some id) (Some id) = false.
Proof. simpl. now rewrite N.eqb_refl. Qed.

Lemma differs_other (a b : N) : a <> b -> Drag.differs (Some a) (Some b) = true.
Proof. intros H. simpl. apply N.eqb_neq in H. now rewrite H. Qed.

(** X12. [findTouchById] returns the first touch of the list that has the
    identifier, and [null] exactly when no touch has it. *)
Theorem findTouchById_first (touchList : list Touch.t) (id : N) :
  match Drag.findTouchById touchList (Some id) with
  | Some touch =>
      exists before after,
        touchList = before ++ touch :: after
        /\ Touch.identifier touch = id
        /\ forall t, In t before -> Touch.identifier t <> id
  | None => forall t, In t touchList -> Touch.identifier t <> id
  end.
Proof.
  induction touchList as [|t0 rest IH]; cbn [Drag.findTouchById].
  - intros t [].
  - destruct (N.eq_dec (Touch.identifier t0) id) as [E|E].
    + rewrite E, differs_same. exists [], rest.
      split; [reflexivity|]. split; [exact E|]. intros t [].
    + rewrite (differs_other E).
      destruct (Drag.findTouchById rest (Some id)) as [touch|].
      * destruct IH as (before & after & -> & Hid & Hb).
        exists (t0 :: before), after. split; [reflexivity|].
        split; [exact Hid|]. intros t [<-|Hin]; [exact E|now apply Hb].
      * intros t [<-|Hin]; [exact E|now apply IH].
Qed.

Lemma findTouchById_absent (touchList : list Touch.t) (id : N) :
  (forall t, In t touchList -> Touch.identifier t <> id) ->
  Drag.findTouchById touchList (Some id) = None.
Proof.
  intros H.
  induction touchList as [|t0 rest IH]; [reflexivity|].
  cbn [Drag.findTouchById].
  rewrite differs_other by (apply H; now left).
  apply IH. intros t Hin. apply H. now right.
Qed.

(** X13. While one pointer or touch drags the handle, the moves, the
    releases and the cancellations of every other pointer or touch are
    ignored: the state is the same and the colour picker is not opened. *)
Theorem other_pointers_are_ignored (st : Client.State) (id : N)
  (event : PointerEvent.t) (touches : list Touch.t) :
  Picker.isDragging (Client.colorPicker st) = true ->
  Picker.pointerId (Client.colorPicker st) = Some id ->
  PointerEvent.pointerId event <> id ->
  (forall t, In t touches -> Touch.identifier t <> id) ->
  Drag.handlePointerMove event st = st
  /\ Drag.handlePointerUp event st = (st, false)
  /\ Drag.handlePointerCancel event st = (st, false)
  /\ Drag.handleTouchMove touches st = st
  /\ Drag.handleTouchEnd touches st = (st, false)
  /\ Drag.handleTouchCancel touches st = (st, false).
Proof.
  intros Hd Hid Hev Ht.
  unfold Drag.handlePointerMove, Drag.handlePointerUp, Drag.handlePointerCancel,
    Drag.finishColorPickerDrag, Drag.handleTouchMove, Drag.handleTouchEnd,
    Drag.handleTouchCancel.
  rewrite Hd, Hid, (differs_other Hev), (findTouchById_absent _ Ht).
  repeat split; reflexivity.
Qed.

Lemma other_pointers_are_ignored_witness :
  let cp := Drag.moveTo (Num.Fin 44) (Num.Fin 106)
              (Client.startDrag 1 true (Num.Fin 44) (Num.Fin 106)
                 (Client.colorPicker
                    (Client.loaded (lit "#ffffff")
                       {| Client.left := Num.Fin 0; Client.top := Num.Fin 0;
                          Client.width := Num.Fin 300; Client.height := Num.Fin 150 |}
                       (Num.Fin 1) (Num.Fin 0)))) in
  let st := Client.set_colorPicker cp
              (Client.loaded (lit "#ffffff")
                 {| Client.left := Num.Fin 0; Client.top := Num.Fin 0;
                    Client.width := Num.Fin 300; Client.height := Num.Fin 150 |}
                 (Num.Fin 1) (Num.Fin 0)) in
  let event := {| PointerEvent.clientX := Num.Fin 10;
                  PointerEvent.clientY := Num.Fin 10;
                  PointerEvent.pointerId := 2 |} in
  Drag.handlePointerMove event st = st
  /\ Drag.handlePointerUp event st = (st, false).
Proof.
  intros cp st event.
  destruct (@other_pointers_are_ignored st 1%N event []) as (H1 & H2 & _);
    try reflexivity.
  - simpl. discriminate.
  - intros t [].
  - split; assumption.
Defined.

(** With no drag under way the six handlers do nothing. *)
Lemma no_drag_no_effect (st : Client.State) (event : PointerEvent.t)
  (touches : list Touch.t) :
  Picker.isDragging (Client.colorPicker st) = false ->
  Drag.handlePointerMove event st = st
  /\ Drag.handlePointerUp event st = (st, false)
  /\ Drag.handlePointerCancel event st = (st, false)
  /\ Drag.handleTouchMove touches st = st
  /\ Drag.handleTouchEnd touches st = (st, false)
  /\ Drag.handleTouchCancel touches st = (st, false).
Proof.
  intros Hd.
  unfold Drag.handlePointerMove, Drag.handlePointerUp, Drag.handlePointerCancel,
    Drag.finishColorPickerDrag, Drag.handleTouchMove, Drag.handleTouchEnd,
    Drag.handleTouchCancel.
  rewrite Hd. repeat split; reflexivity.
Qed.

Lemma lt_Fin (a b : R) : Num.lt (Num.Fin a) (Num.Fin b) = true <-> (a < b)%R.
Proof.
  unfold Num.lt, Num.le. destruct (Rle_dec b a); simpl; split;
    intros H; try discriminate; try reflexivity; lra.
Qed.

Lemma findTouchById_found (before after : list Touch.t) (touch : Touch.t) (id : N) :
  Touch.identifier touch = id ->
  (forall t, In t before -> Touch.identifier t <> id) ->
  Drag.findTouchById (before ++ touch :: after) (Some id) = Some touch.
Proof.
  intros Hid Hb. induction before as [|t0 before IH]; cbn [app Drag.findTouchById].
  - now rewrite Hid, differs_same.
  - rewrite differs_other by (apply Hb; now left).
    apply IH. intros t Hin. apply Hb. now right.
Qed.

(** The end of a drag under way, for finite positions. *)
Lemma finish_eval (st : Client.State) (id : N) (trigger : bool) (x y sx sy : R) :
  Picker.isDragging (Client.colorPicker st) = true ->
  Picker.pointerId (Client.colorPicker st) = Some id ->
  Picker.x (Client.colorPicker st) = Some (Num.Fin x) ->
  Picker.y (Client.colorPicker st) = Some (Num.Fin y) ->
  Picker.dragStartX (Client.colorPicker st) = Some (Num.Fin sx) ->
  Picker.dragStartY (Client.colorPicker st) = Some (Num.Fin sy) ->
  Drag.finishColorPickerDrag (Some id) trigger st
  = (Client.set_colorPicker (Drag.release (Client.colorPicker st)) st,
     trigger
     && Num.lt (Num.Fin (sqrt ((x - sx) * (x - sx) + (y - sy) * (y - sy))))
               (Num.Fin 3)).
Proof.
  intros Hd Hid Hx Hy Hsx Hsy. unfold Drag.finishColorPickerDrag.
  rewrite Hd, Hid, differs_same, Hx, Hy, Hsx, Hsy. reflexivity.
Qed.

(** X14. The end of a drag. A release or a cancellation by the pointer
    that drags always ends the drag: the handle stays where it is, no
    pointer is tracked any more. A release opens the colour picker exactly
    when the handle, not the pointer, lies less than 3 pixels from where
    it was when the drag began; a cancellation never opens it. *)
Theorem release_opens_picker_within_3px (st : Client.State)
  (event : PointerEvent.t) (x y sx sy : R) :
  Picker.isDragging (Client.colorPicker st) = true ->
  Picker.pointerId (Client.colorPicker st) = Some (PointerEvent.pointerId event) ->
  Picker.x (Client.colorPicker st) = Some (Num.Fin x) ->
  Picker.y (Client.colorPicker st) = Some (Num.Fin y) ->
  Picker.dragStartX (Client.colorPicker st) = Some (Num.Fin sx) ->
  Picker.dragStartY (Client.colorPicker st) = Some (Num.Fin sy) ->
  let ended := Client.set_colorPicker (Drag.release (Client.colorPicker st)) st in
  exists opens,
    Drag.handlePointerUp event st = (ended, opens)
    /\ (opens = true
        <-> (sqrt ((x - sx) * (x - sx) + (y - sy) * (y - sy)) < 3)%R)
    /\ Drag.handlePointerCancel event st = (ended, false)
    /\ Picker.isDragging (Client.colorPicker ended) = false
    /\ Picker.pointerId (Client.colorPicker ended) = None
    /\ Picker.x (Client.colorPicker ended) = Some (Num.Fin x)
    /\ Picker.y (Client.colorPicker ended) = Some (Num.Fin y)
    /\ Client.pulses ended = Client.pulses st
    /\ Client.sockets ended = Client.sockets st.
Proof.
  intros Hd Hid Hx Hy Hsx Hsy ended.
  unfold Drag.handlePointerUp, Drag.handlePointerCancel.
  rewrite (@finish_eval st _ true x y sx sy Hd Hid Hx Hy Hsx Hsy),
    (@finish_eval st _ false x y sx sy Hd Hid Hx Hy Hsx Hsy). fold ended.
  eexists. split; [reflexivity|]. split; [apply lt_Fin|].
  split; [reflexivity|].
  cbn [ended Client.colorPicker Client.set_colorPicker Drag.release
       Picker.isDragging Picker.pointerId Picker.x Picker.y
       Client.pulses Client.sockets].
  repeat split; assumption || reflexivity.
Qed.

(** X15. A click on the handle opens the colour picker and spawns
    nothing: a pointer-down inside the handle followed by the release of
    the same pointer puts no pulse in the collection and hands nothing to
    the socket, leaves the handle in place, ends the drag and calls
    [openColorPicker]. *)
Theorem click_on_handle_opens_picker (st : Client.State)
  (down up : PointerEvent.t) (x y : R) :
  Picker.x (Client.colorPicker st) = Some (Num.Fin x) ->
  Picker.y (Client.colorPicker st) = Some (Num.Fin y) ->
  (let p := Client.getPointerPosition down st in
   Client.isInsideColorPicker (Client.x p) (Client.y p) st = true) ->
  PointerEvent.pointerId up = PointerEvent.pointerId down ->
  exists pressed released,
    Client.handlePointerDown down st = Ok pressed
    /\ Picker.isDragging (Client.colorPicker pressed) = true
    /\ Client.pulses pressed = Client.pulses st
    /\ Client.sockets pressed = Client.sockets st
    /\ Drag.handlePointerUp up pressed = (released, true)
    /\ Picker.isDragging (Client.colorPicker released) = false
    /\ Picker.x (Client.colorPicker released) = Some (Num.Fin x)
    /\ Picker.y (Client.colorPicker released) = Some (Num.Fin y)
    /\ Client.pulses released = Client.pulses st
    /\ Client.sockets released = Client.sockets st
    /\ Client.timers released = Client.timers st.
Proof.
  intros Hx Hy Hin Hid.
  unfold Client.handlePointerDown. cbv zeta in Hin. rewrite Hin.
  eexists _, _. split; [reflexivity|].
  split; [reflexivity|]. split; [reflexivity|]. split; [reflexivity|].
  split.
  - unfold Drag.handlePointerUp.
    erewrite (@finish_eval _ (PointerEvent.pointerId up) true x y x y);
      [| reflexivity
       | cbn [Client.colorPicker Client.set_colorPicker Client.startDrag
              Picker.pointerId]; now rewrite Hid
       | exact Hx | exact Hy | exact Hx | exact Hy].
    f_equal. simpl andb. apply lt_Fin.
    replace ((x - x) * (x - x) + (y - y) * (y - y))%R with 0%R by ring.
    rewrite sqrt_0. lra.
  - cbn [Client.colorPicker Client.set_colorPicker Client.startDrag Drag.release
         Picker.isDragging Picker.x Picker.y Client.pulses Client.sockets
         Client.timers].
    repeat split; assumption || reflexivity.
Qed.

(** A point no farther from the picker centre than its radius is inside. *)
Lemma hypot_inside (dx dy r : R) :
  (0 <= r)%R -> (dx * dx + dy * dy <= r * r)%R ->
  Num.le (Num.Math_hypot (Num.Fin dx) (Num.Fin dy)) (Num.Fin r) = true.
Proof.
  intros Hr Hle. simpl.
  destruct (Rle_dec (sqrt (dx * dx + dy * dy)) r) as [|Hn]; [reflexivity|].
  exfalso. apply Hn.
  rewrite <- (sqrt_square r Hr). apply sqrt_le_1; nra.
Qed.

(** A drag that began with the handle at (44, 106) and ends with it at
    (46, 106): the release opens the picker. *)
Lemma release_opens_picker_within_3px_witness :
  let base := Client.loaded (lit "#ffffff")
                {| Client.left := Num.Fin 0; Client.top := Num.Fin 0;
                   Client.width := Num.Fin 300; Client.height := Num.Fin 150 |}
                (Num.Fin 1) (Num.Fin 0) in
  let st := Client.set_colorPicker
              (Drag.moveTo (Num.Fin 46) (Num.Fin 106)
                 (Client.startDrag 1 true (Num.Fin 50) (Num.Fin 100)
                    (Drag.moveTo (Num.Fin 44) (Num.Fin 106)
                       (Client.colorPicker base)))) base in
  let event := {| PointerEvent.clientX := Num.Fin 52;
                  PointerEvent.clientY := Num.Fin 100;
                  PointerEvent.pointerId := 1 |} in
  exists ended, Drag.handlePointerUp event st = (ended, true).
Proof.
  intros base st event.
  destruct (@release_opens_picker_within_3px st event 46 106 44 106)
    as (opens & Hup & Hiff & _); try reflexivity.
  exists (Client.set_colorPicker (Drag.release (Client.colorPicker st)) st).
  rewrite Hup. f_equal. apply Hiff.
  replace ((46 - 44) * (46 - 44) + (106 - 106) * (106 - 106))%R
    with (2 * 2)%R by ring.
  rewrite sqrt_square; lra.
Defined.

Lemma click_on_handle_opens_picker_witness :
  let base := Client.loaded (lit "#ffffff")
                {| Client.left := Num.Fin 0; Client.top := Num.Fin 0;
                   Client.width := Num.Fin 300; Client.height := Num.Fin 150 |}
                (Num.Fin 1) (Num.Fin 0) in
  let st := Client.set_colorPicker
              (Drag.moveTo (Num.Fin 44) (Num.Fin 106) (Client.colorPicker base))
              base in
  let event := {| PointerEvent.clientX := Num.Fin 50;
                  PointerEvent.clientY := Num.Fin 100;
                  PointerEvent.pointerId := 1 |} in
  exists pressed released,
    Client.handlePointerDown event st = Ok pressed
    /\ Drag.handlePointerUp event pressed = (released, true)
    /\ Client.pulses released = [].
Proof.
  intros base st event.
  destruct (@click_on_handle_opens_picker st event event 44 106)
    as (pressed & released & Hd & _ & _ & _ & Hu & _ & _ & _ & Hp & _);
    try reflexivity.
  - unfold Client.isInsideColorPicker, Client.getPointerPosition, Client.position.
    cbn [Client.x Client.y Client.colorPicker Client.set_colorPicker st base
         Client.loaded Drag.moveTo Picker.x Picker.y Picker.radius
         Client.orZero Client.rect Client.left Client.top event
         PointerEvent.clientX PointerEvent.clientY].
    autorewrite with num_fin. apply hypot_inside; lra.
  - exists pressed, released. split; [exact Hd|]. split; [exact Hu|exact Hp].
Defined.

(** X16. A move of the pointer that drags carries the handle with it:
    the centre goes to where it was when the drag began plus the
    displacement of the pointer since then, clamped to the surface, so the
    handle never leaves the surface while dragged; nothing else in the
    state changes, and the drag goes on. *)
Theorem drag_follows_pointer (st : Client.State) (event : PointerEvent.t)
  (r cw ch sx sy px py l t ex ey : R) :
  Picker.isDragging (Client.colorPicker st) = true ->
  Picker.pointerId (Client.colorPicker st) = Some (PointerEvent.pointerId event) ->
  Picker.radius (Client.colorPicker st) = Num.Fin r ->
  Client.cssWidth st = Num.Fin cw -> Client.cssHeight st = Num.Fin ch ->
  Picker.dragStartX (Client.colorPicker st) = Some (Num.Fin sx) ->
  Picker.dragStartY (Client.colorPicker st) = Some (Num.Fin sy) ->
  Picker.pointerStartX (Client.colorPicker st) = Num.Fin px ->
  Picker.pointerStartY (Client.colorPicker st) = Num.Fin py ->
  Client.left (Client.rect st) = Num.Fin l ->
  Client.top (Client.rect st) = Num.Fin t ->
  PointerEvent.clientX event = Num.Fin ex ->
  PointerEvent.clientY event = Num.Fin ey ->
  let targetX := (sx + ((ex - l) - px))%R in
  let targetY := (sy + ((ey - t) - py))%R in
  exists x y,
    Drag.handlePointerMove event st
    = Client.set_colorPicker
        (Drag.moveTo (Num.Fin x) (Num.Fin y) (Client.colorPicker st)) st
    /\ x = Rmin (Rmax r targetX) (Rmax r (cw - r))
    /\ y = Rmin (Rmax r targetY) (Rmax r (ch - r))
    /\ (r <= x <= Rmax r (cw - r))%R /\ (r <= y <= Rmax r (ch - r))%R
    /\ ((r <= targetX <= cw - r)%R -> x = targetX)
    /\ ((r <= targetY <= ch - r)%R -> y = targetY).
Proof.
  intros Hd Hid Hr Hw Hh Hsx Hsy Hpx Hpy Hl Ht Hex Hey targetX targetY.
  unfold Drag.handlePointerMove. rewrite Hd, Hid, differs_same.
  simpl negb. simpl orb. cbv iota.
  unfold Drag.follow, Client.getPointerPosition, Client.position.
  cbn [Client.x Client.y]. rewrite Hex, Hey, Hl, Ht, Hpx, Hpy, Hsx, Hsy.
  cbn [Client.orZero]. rewrite !sub_Fin, !add_Fin.
  rewrite (@positionColorPicker_eval _ r 0 cw ch targetX targetY);
    [| exact Hr | exact Hw | exact Hh | left; split; reflexivity].
  eexists _, _. split; [reflexivity|].
  split; [reflexivity|]. split; [reflexivity|].
  split; [apply clamp_bounds, Rmax_l|]. split; [apply clamp_bounds, Rmax_l|].
  split; intros H; apply clamp_fixed; rewrite Rmax_right by lra; lra.
Qed.

Lemma drag_follows_pointer_witness :
  let base := Client.set_canvas (Num.Fin 300) (Num.Fin 150) (Num.Fin 1) 300 150
                (Client.loaded (lit "#ffffff")
                   {| Client.left := Num.Fin 0; Client.top := Num.Fin 0;
                      Client.width := Num.Fin 300; Client.height := Num.Fin 150 |}
                   (Num.Fin 1) (Num.Fin 0)) in
  let st := Client.set_colorPicker
              (Client.startDrag 1 true (Num.Fin 50) (Num.Fin 100)
                 (Drag.moveTo (Num.Fin 44) (Num.Fin 106)
                    (Client.colorPicker base))) base in
  let event := {| PointerEvent.clientX := Num.Fin 150;
                  PointerEvent.clientY := Num.Fin 90;
                  PointerEvent.pointerId := 1 |} in
  exists x y,
    Drag.handlePointerMove event st
    = Client.set_colorPicker
        (Drag.moveTo (Num.Fin x) (Num.Fin y) (Client.colorPicker st)) st
    /\ x = (44 + (150 - 0 - 50))%R /\ y = (106 + (90 - 0 - 100))%R.
Proof.
  intros base st event.
  destruct (@drag_follows_pointer st event 20 300 150 44 106 50 100 0 0 150 90)
    as (x & y & Hm & _ & _ & _ & _ & Hx & Hy); try reflexivity.
  exists x, y. split; [exact Hm|]. split; [apply Hx|apply Hy]; lra.
Defined.

(** X17. A touch drags the handle as a pointer does: for the touch that
    is tracked, wherever it stands in the list, [handleTouchMove],
    [handleTouchEnd] and [handleTouchCancel] do what [handlePointerMove],
    [handlePointerUp] and [handlePointerCancel] do for a pointer with the
    same identifier and the same client coordinates. *)
Theorem touch_drag_is_pointer_drag (st : Client.State) (touch : Touch.t)
  (before after : list Touch.t) :
  Picker.isDragging (Client.colorPicker st) = true ->
  Picker.pointerId (Client.colorPicker st) = Some (Touch.identifier touch) ->
  (forall t, In t before -> Touch.identifier t <> Touch.identifier touch) ->
  let event := {| PointerEvent.clientX := Touch.clientX touch;
                  PointerEvent.clientY := Touch.clientY touch;
                  PointerEvent.pointerId := Touch.identifier touch |} in
  Drag.handleTouchMove (before ++ touch :: after) st
  = Drag.handlePointerMove event st
  /\ Drag.handleTouchEnd (before ++ touch :: after) st
     = Drag.handlePointerUp event st
  /\ Drag.handleTouchCancel (before ++ touch :: after) st
     = Drag.handlePointerCancel event st.
Proof.
  intros Hd Hid Hb event.
  unfold Drag.handleTouchMove, Drag.handleTouchEnd, Drag.handleTouchCancel,
    Drag.handlePointerMove, Drag.handlePointerUp, Drag.handlePointerCancel.
  rewrite Hd, Hid. cbn [event PointerEvent.pointerId].
  rewrite differs_same, (@findTouchById_found before after touch _ eq_refl Hb).
  repeat split; reflexivity.
Qed.

Lemma touch_drag_is_pointer_drag_witness :
  let base := Client.loaded (lit "#ffffff")
                {| Client.left := Num.Fin 0; Client.top := Num.Fin 0;
                   Client.width := Num.Fin 300; Client.height := Num.Fin 150 |}
                (Num.Fin 1) (Num.Fin 0) in
  let st := Client.set_colorPicker
              (Client.startDrag 7 false (Num.Fin 50) (Num.Fin 100)
                 (Drag.moveTo (Num.Fin 44) (Num.Fin 106)
                    (Client.colorPicker base))) base in
  let other := {| Touch.identifier := 3; Touch.clientX := Num.Fin 5;
                  Touch.clientY := Num.Fin 5 |} in
  let touch := {| Touch.identifier := 7; Touch.clientX := Num.Fin 60;
                  Touch.clientY := Num.Fin 100 |} in
  Drag.handleTouchEnd [other; touch] st
  = Drag.handlePointerUp
      {| PointerEvent.clientX := Num.Fin 60; PointerEvent.clientY := Num.Fin 100;
         PointerEvent.pointerId := 7 |} st.
Proof.
  intros base st other touch.
  refine (proj1 (proj2 (@touch_drag_is_pointer_drag st touch [other] []
                          eq_refl eq_refl _))).
  intros t [<-|[]]. simpl. discriminate.
Defined.

(** ** The animation over several frames *)

Lemma filter_map_swap (A B : Type) (f : A -> B) (keep : B -> bool) (l : list A) :
  List.filter keep (List.map f l)
  = List.map f (List.filter (fun a => keep (f a)) l).
Proof.
  induction l as [|a l IH]; simpl; [reflexivity|].
  destruct (keep (f a)); simpl; now rewrite IH.
Qed.

(** X18. The loop of [animate] runs backwards and removes pulses from the
    array it is running over; all the same it handles every pulse exactly
    once: the collection after a frame is the collection before it,
    without the pulses that expire in the frame, in the same order, each
    advanced once; coordinates and colours are untouched; one circle is
    drawn for each pulse that is kept, the last pulse first; and a frame
    never adds a pulse. *)
Theorem animate_keeps_order (now : number) (st : Client.State) :
  let d := Client.deltaSec_of now (Client.lastTime st) in
  let kept := List.filter (fun p => negb (Client.expired (Client.advance d p)))
                          (Client.pulses st) in
  Client.pulses (fst (Client.animate now st)) = List.map (Client.advance d) kept
  /\ snd (Client.animate now st)
     = List.map (fun p => Client.draw_of (Client.cssWidth st) (Client.cssHeight st)
                            (Client.advance d p))
                (List.rev kept)
  /\ (List.length (Client.pulses (fst (Client.animate now st)))
      <= List.length (Client.pulses st))%nat
  /\ (forall p, Client.normX (Client.advance d p) = Client.normX p
                /\ Client.normY (Client.advance d p) = Client.normY p
                /\ Client.rgb (Client.advance d p) = Client.rgb p)
  /\ fst (Client.animate now st)
     = Client.set_pulses (Client.pulses (fst (Client.animate now st)))
         (Client.set_lastTime now st).
Proof.
  intros d kept. destruct (animate_spec now st) as (Hp & Hd & _).
  fold d in Hp, Hd.
  assert (Hs : Client.survivors d (Client.pulses st)
               = List.map (Client.advance d) kept).
  { unfold Client.survivors, kept. apply filter_map_swap. }
  split; [now rewrite Hp|]. split.
  - rewrite Hd, Hs, <- map_rev, map_map. reflexivity.
  - split.
    + rewrite Hp, Hs, length_map. apply filter_length_le.
    + split; [intros p; repeat split; reflexivity|].
      unfold Client.animate.
      destruct (Client.animate_loop _ _ _ _ _) as [ps draws]. reflexivity.
Qed.

Lemma deltaSec_spaced (t0 now : R) :
  (50 <= now - t0)%R ->
  Client.deltaSec_of (Num.Fin now) (Num.Fin t0) = Num.Fin 0.05.
Proof.
  intros H. rewrite deltaSec_Fin. f_equal. apply Rmin_right. lra.
Qed.

Lemma advance_age (d a : R) (p : Client.Pulse) :
  Client.age p = Num.Fin a ->
  Client.age (Client.advance (Num.Fin d) p) = Num.Fin (a + d).
Proof. intros H. cbn [Client.advance Client.age]. now rewrite H. Qed.

(** The ages after the frames of a run whose time stamps are at least
    50 milliseconds apart. *)
Lemma frames_ages (nows : list R) (st : Client.State) (t0 a0 : R) :
  Client.lastTime st = Num.Fin t0 ->
  Traffic.spaced 50 t0 nows ->
  (forall p, In p (Client.pulses st) ->
             exists a, Client.age p = Num.Fin a /\ (a0 <= a)%R) ->
  forall p, In p (Client.pulses (Client.frames (List.map Num.Fin nows) st)) ->
    exists a, Client.age p = Num.Fin a
              /\ (a0 + 0.05 * INR (List.length nows) <= a)%R
              /\ (nows <> [] -> (a < 1.4)%R).
Proof.
  revert st t0 a0. induction nows as [|now rest IH]; intros st t0 a0 Hl Hsp Hinv p Hin.
  - destruct (Hinv p Hin) as (a & Ha & Hle). exists a. simpl.
    split; [exact Ha|]. split; [lra|congruence].
  - destruct Hsp as [Hgap Hsp]. cbn [List.map Client.frames] in Hin.
    destruct (animate_spec (Num.Fin now) st) as (Hp & _ & Ht).
    rewrite Hl, (deltaSec_spaced Hgap) in Hp.
    assert (Hstep : forall q,
               In q (Client.pulses (fst (Client.animate (Num.Fin now) st))) ->
               exists a, Client.age q = Num.Fin a
                         /\ (a0 + 0.05 <= a)%R /\ (a < 1.4)%R).
    { intros q Hq. rewrite Hp in Hq. unfold Client.survivors in Hq.
      apply filter_In in Hq as [Hq Halive].
      apply in_map_iff in Hq as (q0 & <- & Hq0).
      destruct (Hinv q0 Hq0) as (a & Ha & Hle).
      exists (a + 0.05)%R. pose proof (advance_age 0.05 q0 Ha) as Hadv.
      split; [exact Hadv|]. split; [lra|].
      destruct (Rlt_le_dec (a + 0.05) 1.4) as [|Hge]; [assumption|].
      apply (expired_Fin _ Hadv) in Hge. rewrite Hge in Halive. discriminate. }
    destruct rest as [|now' rest'].
    + cbn [List.map Client.frames] in Hin.
      destruct (Hstep p Hin) as (a & Ha & Hle & Hlt).
      exists a. split; [exact Ha|]. cbn [List.length INR]. split; [lra|auto].
    + assert (Hinv' : forall q,
                 In q (Client.pulses (fst (Client.animate (Num.Fin now) st))) ->
                 exists a, Client.age q = Num.Fin a /\ (a0 + 0.05 <= a)%R).
      { intros q Hq. destruct (Hstep q Hq) as (a & Ha & Hle & _). eauto. }
      destruct (IH _ now (a0 + 0.05)%R Ht Hsp Hinv' p Hin) as (a & Ha & Hle & Hlt).
      exists a. split; [exact Ha|].
      split; [|intros _; apply Hlt; discriminate].
      change (List.length (now :: now' :: rest'))
        with (S (List.length (now' :: rest'))).
      rewrite S_INR. lra.
Qed.

(** X19. Every pulse goes away: over frames whose time stamps are at
    least 50 milliseconds apart, once there have been 28 of them the
    collection holds no pulse that was there at the start, whatever their
    ages were. *)
Theorem pulses_expire_within_28_frames (nows : list R) (st : Client.State)
  (t0 : R) :
  Client.lastTime st = Num.Fin t0 ->
  Traffic.spaced 50 t0 nows ->
  (forall p, In p (Client.pulses st) ->
             exists a, Client.age p = Num.Fin a /\ (0 <= a)%R) ->
  (28 <= List.length nows)%nat ->
  Client.pulses (Client.frames (List.map Num.Fin nows) st) = [].
Proof.
  intros Hl Hsp Hinv Hlen.
  destruct (Client.pulses (Client.frames (List.map Num.Fin nows) st))
    as [|p ps] eqn:E; [reflexivity|].
  exfalso.
  destruct (@frames_ages nows st t0 0 Hl Hsp Hinv p) as (a & _ & Hle & Hlt).
  { rewrite E. now left. }
  assert (Hne : nows <> []) by (intros ->; simpl in Hlen; lia).
  specialize (Hlt Hne).
  apply le_INR in Hlen.
  assert (H28 : INR 28 = 28%R) by (rewrite INR_IZR_INZ; reflexivity).
  rewrite H28 in Hlen. lra.
Qed.

Lemma pulses_expire_within_28_frames_witness :
  let base := Client.loaded (lit "#ffffff")
                {| Client.left := Num.Fin 0; Client.top := Num.Fin 0;
                   Client.width := Num.Fin 300; Client.height := Num.Fin 150 |}
                (Num.Fin 1) (Num.Fin 0) in
  let st := Client.set_pulses
              [Client.newPulse (Num.Fin 0) (Num.Fin 1)
                 (Color.hexToRgb_str (lit "#ff8040"))] base in
  Client.pulses
    (Client.frames
       (List.map Num.Fin
          [50; 100; 150; 200; 250; 300; 350; 400; 450; 500; 550; 600; 650; 700; 750; 800; 850; 900; 950; 1000; 1050; 1100; 1150; 1200; 1250; 1300; 1350; 1400]%R) st)
  = [].
Proof.
  intros base st.
  apply (@pulses_expire_within_28_frames
           [50; 100; 150; 200; 250; 300; 350; 400; 450; 500; 550; 600; 650; 700; 750; 800; 850; 900; 950; 1000; 1050; 1100; 1150; 1200; 1250; 1300; 1350; 1400]%R st 0%R).
  - reflexivity.
  - cbn [Traffic.spaced]. repeat split; lra.
  - intros p [<-|[]]. exists 0%R. split; [reflexivity|lra].
  - cbn [List.length]. lia.
Defined.

Lemma deltas_length (t0 : R) (nows : list R) :
  List.length (Traffic.deltas t0 nows) = List.length nows.
Proof.
  revert t0. induction nows as [|now rest IH]; intros t0; simpl; auto.
Qed.

(** X20. A pulse is never cut short by a gap between frames: whatever the
    time stamps, each frame ages it by 0.05 seconds at most, so a pulse of
    age [a] is still in the collection after [n] frames as long as
    [a + 0.05 n] is below the lifetime; in particular a pulse just spawned
    lasts through 27 frames at least, even if the page was in the
    background in between. Its age then is the sum of the clamped times
    and its radius has grown by [GROWTH_RATE] times that sum. *)
Theorem pulse_outlives_gaps (nows : list R) (st : Client.State) (t0 a r : R)
  (p : Client.Pulse) :
  Client.lastTime st = Num.Fin t0 ->
  In p (Client.pulses st) ->
  Client.age p = Num.Fin a -> Client.radius p = Num.Fin r ->
  (a + 0.05 * INR (List.length nows) < 1.4)%R ->
  let ds := Traffic.deltas t0 nows in
  let total := List.fold_right Rplus 0%R ds in
  In (Traffic.advanceAll ds p)
     (Client.pulses (Client.frames (List.map Num.Fin nows) st))
  /\ Client.age (Traffic.advanceAll ds p) = Num.Fin (a + total)
  /\ Client.radius (Traffic.advanceAll ds p) = Num.Fin (r + 420 * total)
  /\ (total <= 0.05 * INR (List.length nows))%R.
Proof.
  revert st t0 a r p. induction nows as [|now rest IH];
    intros st t0 a r p Hl Hin Ha Hr Hlt ds total.
  - cbn in *. repeat split; try assumption.
    + rewrite Ha. f_equal. lra.
    + rewrite Hr. f_equal. lra.
    + lra.
  - change (List.length (now :: rest)) with (S (List.length rest)) in *.
    rewrite S_INR in *.
    pose proof (pos_INR (List.length rest)) as Hpos.
    set (d := Rmin ((now - t0) / 1000) 0.05).
    assert (Hd : (d <= 0.05)%R) by apply Rmin_r.
    destruct (animate_spec (Num.Fin now) st) as (Hp & _ & Ht).
    rewrite Hl, deltaSec_Fin in Hp. fold d in Hp.
    pose proof (advance_age d p Ha) as Ha'.
    assert (Hr' : Client.radius (Client.advance (Num.Fin d) p)
                  = Num.Fin (r + 420 * d)).
    { cbn [Client.advance Client.radius]. rewrite Hr. reflexivity. }
    assert (Hin' : In (Client.advance (Num.Fin d) p)
                      (Client.pulses (fst (Client.animate (Num.Fin now) st)))).
    { rewrite Hp. unfold Client.survivors. apply filter_In.
      split; [now apply in_map|].
      destruct (Client.expired (Client.advance (Num.Fin d) p)) eqn:E; [|reflexivity].
      apply (expired_Fin _ Ha') in E. lra. }
    destruct (IH _ now (a + d)%R (r + 420 * d)%R _ Ht Hin' Ha' Hr')
      as (H1 & H2 & H3 & H4); [lra|].
    subst ds total. cbn [Traffic.deltas Traffic.advanceAll List.fold_right
                           List.map Client.frames].
    fold d. split; [exact H1|].
    split; [rewrite H2; f_equal; lra|].
    split; [rewrite H3; f_equal; lra|lra].
Qed.

Lemma pulse_outlives_gaps_witness :
  let base := Client.loaded (lit "#ffffff")
                {| Client.left := Num.Fin 0; Client.top := Num.Fin 0;
                   Client.width := Num.Fin 300; Client.height := Num.Fin 150 |}
                (Num.Fin 1) (Num.Fin 0) in
  let p := Client.newPulse (Num.Fin 0) (Num.Fin 1)
             (Color.hexToRgb_str (lit "#ff8040")) in
  let st := Client.set_pulses [p] base in
  In (Traffic.advanceAll (Traffic.deltas 0 [16; 3600000; 3600016]%R) p)
     (Client.pulses (Client.frames (List.map Num.Fin [16; 3600000; 3600016]%R) st)).
Proof.
  intros base p st.
  apply (@pulse_outlives_gaps [16; 3600000; 3600016]%R st 0%R 0%R 0%R p).
  - reflexivity.
  - now left.
  - reflexivity.
  - reflexivity.
  - simpl. lra.
Defined.

(** What a frame needs of the pulses to draw them: coordinates of
    [0, 1], an age and a radius that are finite and not negative. *)
Lemma advance_drawable (d : R) (p : Client.Pulse) :
  (0 <= d)%R ->
  (Num.within 0 1 (Client.normX p) /\ Num.within 0 1 (Client.normY p)
   /\ exists a r, Client.age p = Num.Fin a /\ (0 <= a)%R
                  /\ Client.radius p = Num.Fin r /\ (0 <= r)%R) ->
  Num.within 0 1 (Client.normX (Client.advance (Num.Fin d) p))
  /\ Num.within 0 1 (Client.normY (Client.advance (Num.Fin d) p))
  /\ exists a r, Client.age (Client.advance (Num.Fin d) p) = Num.Fin a
                 /\ (0 <= a)%R
                 /\ Client.radius (Client.advance (Num.Fin d) p) = Num.Fin r
                 /\ (0 <= r)%R.
Proof.
  intros Hd (Hx & Hy & a & r & Ha & Ha0 & Hr & Hr0).
  split; [exact Hx|]. split; [exact Hy|].
  exists (a + d)%R, (r + 420 * d)%R.
  cbn [Client.advance Client.age Client.radius]. rewrite Ha, Hr.
  unfold Client.GROWTH_RATE. autorewrite with num_fin.
  repeat split; try reflexivity; lra.
Qed.

(** X21. As long as time does not run backwards, a frame draws nothing
    out of range: if every pulse has coordinates of [0, 1] and an age and
    a radius that are finite and not negative, then every circle of the
    frame has its centre within the surface, a radius that is finite and
    not negative, and an opacity between 0 and [MAX_PULSE_ALPHA]; and the
    pulses the frame keeps are again such pulses. *)
Theorem frame_draws_in_range (now t0 cw ch : R) (st : Client.State) :
  Client.lastTime st = Num.Fin t0 -> (t0 <= now)%R ->
  Client.cssWidth st = Num.Fin cw -> Client.cssHeight st = Num.Fin ch ->
  (0 <= cw)%R -> (0 <= ch)%R ->
  (forall p, In p (Client.pulses st) ->
     Num.within 0 1 (Client.normX p) /\ Num.within 0 1 (Client.normY p)
     /\ exists a r, Client.age p = Num.Fin a /\ (0 <= a)%R
                    /\ Client.radius p = Num.Fin r /\ (0 <= r)%R) ->
  (forall c, In c (snd (Client.animate (Num.Fin now) st)) ->
     Num.within 0 cw (Client.draw_x c) /\ Num.within 0 ch (Client.draw_y c)
     /\ (exists r, Client.draw_radius c = Num.Fin r /\ (0 <= r)%R)
     /\ Num.within 0 0.22 (Client.globalAlpha c))
  /\ (forall p, In p (Client.pulses (fst (Client.animate (Num.Fin now) st))) ->
        Num.within 0 1 (Client.normX p) /\ Num.within 0 1 (Client.normY p)
        /\ exists a r, Client.age p = Num.Fin a /\ (0 <= a)%R
                       /\ Client.radius p = Num.Fin r /\ (0 <= r)%R).
Proof.
  intros Hl Hnow Hw Hh Hcw Hch Hinv.
  destruct (animate_spec (Num.Fin now) st) as (Hp & Hd & _).
  rewrite Hl, deltaSec_Fin in Hp, Hd.
  set (d := Rmin ((now - t0) / 1000) 0.05) in *.
  assert (Hd0 : (0 <= d)%R) by (apply Rmin_glb; lra).
  assert (Hkept : forall p, In p (Client.survivors (Num.Fin d) (Client.pulses st)) ->
            Num.within 0 1 (Client.normX p) /\ Num.within 0 1 (Client.normY p)
            /\ exists a r, Client.age p = Num.Fin a /\ (0 <= a)%R
                           /\ Client.radius p = Num.Fin r /\ (0 <= r)%R).
  { intros p Hin. apply survivors_from in Hin as (p0 & Hin0 & ->).
    apply advance_drawable; [exact Hd0|now apply Hinv]. }
  split.
  - intros c Hc. rewrite Hd, Hw, Hh in Hc.
    apply in_map_iff in Hc as (p & <- & Hin). apply in_rev in Hin.
    destruct (Hkept p Hin) as (Hx & Hy & a & r & Ha & Ha0 & Hr & Hr0).
    cbn [Client.draw_of Client.draw_x Client.draw_y Client.draw_radius
         Client.globalAlpha].
    split; [now apply pixel_within|]. split; [now apply pixel_within|].
    split; [now exists r|].
    rewrite Ha, opacity_Fin. simpl.
    pose proof (envelope_bounds Ha0) as [H0 _].
    pose proof (SIN_bound (PI * Rmin 1 (a / 1.4))). lra.
  - intros p Hin. rewrite Hp in Hin. now apply Hkept.
Qed.

Lemma frame_draws_in_range_witness :
  let base := Client.set_canvas (Num.Fin 300) (Num.Fin 150) (Num.Fin 1) 300 150
                (Client.loaded (lit "#ffffff")
                   {| Client.left := Num.Fin 0; Client.top := Num.Fin 0;
                      Client.width := Num.Fin 300; Client.height := Num.Fin 150 |}
                   (Num.Fin 1) (Num.Fin 0)) in
  let st := Client.set_pulses
              [Client.newPulse (Num.Fin 0) (Num.Fin 1)
                 (Color.hexToRgb_str (lit "#ff8040"))] base in
  forall c, In c (snd (Client.animate (Num.Fin 16) st)) ->
    Num.within 0 300 (Client.draw_x c) /\ Num.within 0 150 (Client.draw_y c).
Proof.
  intros base st c Hc.
  destruct (@frame_draws_in_range 16 0 300 150 st) as [H _];
    try reflexivity; try lra.
  - intros p [<-|[]]. simpl. repeat split; try lra.
    exists 0%R, 0%R. repeat split; try reflexivity; lra.
  - destruct (H c Hc) as (Hx & Hy & _). split; assumption.
Defined.
